(** * rag-pdf-reader: the preprocessing pipeline of [preprocess/preprocess.py]

    A shallow embedding of the chunker ([chunk_text]), of the page lookup
    ([find_page], [approx_pages]), of the record builder and of the embedding
    step of the script, with the properties of the specification that are
    about them.

    Python integers are [Z]; Python strings are [string], whose length is
    the number of characters (a character is an [ascii]; the program
    looks at no character but the dot and the underscore of a file
    name); a Python list is a [list].  An exception is a value of [exn],
    carried by the result type [res]. *)

From Stdlib Require Import ZArith List String Ascii Bool Lia DecimalString.
From Stdlib Require DecimalPos DecimalZ.
Import ListNotations.

Local Open Scope string_scope.
Local Open Scope list_scope.
Local Open Scope Z_scope.

(** ** Exceptions *)

Inductive exn : Type :=
| IndexError.

Inductive res (A : Type) : Type :=
| Ok (a : A)
| Raise (e : exn).

Arguments Ok {A} a.
Arguments Raise {A} e.

Definition bind {A B : Type} (m : res A) (k : A -> res B) : res B :=
  match m with
  | Ok a => k a
  | Raise e => Raise e
  end.

Notation "x <- m ;; k" := (bind m (fun x => k))
  (at level 61, m at next level, right associativity).
Notation "' pat <- m ;; k" := (bind m (fun x => match x with pat => k end))
  (at level 61, pat pattern, m at next level, right associativity).

(** ** The Python built-ins the script uses *)

Module Py.

(** [len(s)] of a string. *)
Definition len (s : string) : Z := Z.of_nat (String.length s).

(** [len(l)] of a list. *)
Definition llen {A : Type} (l : list A) : Z := Z.of_nat (List.length l).

(** An index of a slice: a negative one counts from the end, and both
    kinds are clamped to [0, n]. *)
Definition clamp (n i : Z) : Z :=
  if i <? 0 then Z.max 0 (i + n) else Z.min i n.

(** [s[a:b]]. *)
Definition slice (s : string) (a b : Z) : string :=
  let n := len s in
  let lo := clamp n a in
  let hi := clamp n b in
  substring (Z.to_nat lo) (Z.to_nat (hi - lo)) s.

(** [l[i]]: a negative index counts from the end, an index out of range
    raises [IndexError]. *)
Definition getitem {A : Type} (l : list A) (i : Z) : res A :=
  let j := if i <? 0 then i + llen l else i in
  if (j <? 0) || (llen l <=? j) then Raise IndexError
  else match nth_error l (Z.to_nat j) with
       | Some a => Ok a
       | None => Raise IndexError
       end.

(** [sep.join(l)]. *)
Definition join (sep : string) (l : list string) : string :=
  String.concat sep l.

(** [s.replace(a, b)] for single characters [a] and [b]. *)
Fixpoint replace_char (a b : ascii) (s : string) : string :=
  match s with
  | EmptyString => EmptyString
  | String c r =>
      String (if Ascii.eqb c a then b else c) (replace_char a b r)
  end.

(** [str(i)], as an f-string prints an integer. *)
Definition str_of_int (i : Z) : string :=
  NilZero.string_of_int (Z.to_int i).

(** [enumerate(l)], counting from [k]. *)
Fixpoint enumerate_from {A : Type} (k : Z) (l : list A) : list (Z * A) :=
  match l with
  | [] => []
  | a :: r => (k, a) :: enumerate_from (k + 1) r
  end.

Definition enumerate {A : Type} (l : list A) : list (Z * A) :=
  enumerate_from 0 l.

(** [numpy.cumsum(l).tolist()]: the running sums of [l]. *)
Fixpoint cumsum_from (acc : Z) (l : list Z) : list Z :=
  match l with
  | [] => []
  | x :: r => (acc + x) :: cumsum_from (acc + x) r
  end.

Definition cumsum (l : list Z) : list Z := cumsum_from 0 l.

(** [name.rfind(".")]: the index of the last dot, [-1] without one. *)
Fixpoint rfind_dot_from (k : Z) (found : Z) (s : string) : Z :=
  match s with
  | EmptyString => found
  | String c r =>
      rfind_dot_from (k + 1) (if Ascii.eqb c "."%char then k else found) r
  end.

Definition rfind_dot (s : string) : Z := rfind_dot_from 0 (-1) s.

(** [pathlib.PurePath.stem]: the file name without its last suffix; a
    leading or a trailing dot starts no suffix. *)
Definition stem (name : string) : string :=
  let i := rfind_dot name in
  if (0 <? i) && (i <? len name - 1) then slice name 0 i else name.

End Py.

(** ** Settings *)

Definition CHUNK_SIZE : Z := 1200.
Definition CHUNK_OVERLAP : Z := 200.

(** ** The chunker *)

(** The [while] loop of [chunk_text], one iteration per unit of fuel;
    [None] when the fuel runs out before the loop exits. *)
Fixpoint chunk_loop (fuel : nat) (text : string) (n chunk_size step : Z)
    (start : Z) (chunks : list string) : option (list string) :=
  match fuel with
  | O => None
  | S fuel' =>
      if start <? n then
        let end_ := Z.min n (start + chunk_size) in
        chunk_loop fuel' text n chunk_size step (start + step)
          (chunks ++ [Py.slice text start end_])
      else Some chunks
  end.

Definition chunk_text_fuel (fuel : nat) (text : string)
    (chunk_size overlap : Z) : option (list string) :=
  let n := Py.len text in
  let step := Z.max 1 (chunk_size - overlap) in
  chunk_loop fuel text n chunk_size step 0 [].

(** The same loop, recording the offsets [(start, end)] of each window
    in place of the substring. *)
Fixpoint span_loop (fuel : nat) (n chunk_size step : Z)
    (start : Z) (spans : list (Z * Z)) : option (list (Z * Z)) :=
  match fuel with
  | O => None
  | S fuel' =>
      if start <? n then
        let end_ := Z.min n (start + chunk_size) in
        span_loop fuel' n chunk_size step (start + step)
          (spans ++ [(start, end_)])
      else Some spans
  end.

Definition chunk_spans_fuel (fuel : nat) (n chunk_size overlap : Z)
  : option (list (Z * Z)) :=
  let step := Z.max 1 (chunk_size - overlap) in
  span_loop fuel n chunk_size step 0 [].

(** [len(text) + 1] iterations are enough (see [span_loop_enough]). *)
Definition chunk_fuel (n : Z) : nat := S (Z.to_nat n).

Definition chunk_text (text : string) (chunk_size overlap : Z) : list string :=
  match chunk_text_fuel (chunk_fuel (Py.len text)) text chunk_size overlap with
  | Some chunks => chunks
  | None => []
  end.

Definition chunk_spans (n chunk_size overlap : Z) : list (Z * Z) :=
  match chunk_spans_fuel (chunk_fuel n) n chunk_size overlap with
  | Some spans => spans
  | None => []
  end.

(** ** The page extractor

    What [pypdf] answers for one file: whether [PdfReader] parses it,
    whether it is encrypted, what [decrypt("")] does, and what
    [extract_text()] gives on each page. *)

Inductive extract_result : Type :=
| Extracted (txt : string)
| ExtractedNone
| ExtractRaised.

Record pdf_file : Type := {
  pdf_name : string;
  pdf_parses : bool;
  pdf_is_encrypted : bool;
  pdf_decrypt_raises : bool;
  pdf_is_encrypted_after : bool;
  pdf_pages : list extract_result
}.

(** [page.extract_text() or ""], with the empty text for a page that
    raises. *)
Definition page_text (e : extract_result) : string :=
  match e with
  | Extracted txt => txt
  | ExtractedNone => ""
  | ExtractRaised => ""
  end.

Definition read_pdf_text (pdf : pdf_file) : list (Z * string) :=
  if negb (pdf_parses pdf) then []
  else if pdf_is_encrypted pdf && pdf_decrypt_raises pdf then []
  else if pdf_is_encrypted pdf && pdf_is_encrypted_after pdf then []
  else map (fun '(i, page) => (i + 1, page_text page))
           (Py.enumerate (pdf_pages pdf)).

(** ** The page offset map and the page lookup *)

(** One iteration of the loop over [pages]: the page's text is appended
    to [full_text] and the page map receives the length of the texts so
    far, joined by the empty string. *)
Definition page_map_step (st : list string * list (Z * Z)) (p : Z * string)
  : list string * list (Z * Z) :=
  let '(full_text, page_map) := st in
  let '(pno, ptxt) := p in
  let full_text' := full_text ++ [ptxt] in
  (full_text', page_map ++ [(pno, Py.len (Py.join "" full_text'))]).

Definition build_page_map (pages : list (Z * string))
  : list string * list (Z * Z) :=
  fold_left page_map_step pages ([], []).

(** [combined]: the page texts joined by two line feeds. *)
Definition combined_of (full_text : list string) : string :=
  Py.join (String "010" (String "010" "")) full_text.

(** The [for] loop of [find_page]: the first entry with [pos <= upto]. *)
Fixpoint find_page_scan (page_map : list (Z * Z)) (pos : Z) : option Z :=
  match page_map with
  | [] => None
  | (pno, upto) :: rest =>
      if pos <=? upto then Some pno else find_page_scan rest pos
  end.

Definition find_page (page_map : list (Z * Z)) (pos : Z) : res Z :=
  match find_page_scan page_map pos with
  | Some pno => Ok pno
  | None => '(pno, _) <- Py.getitem page_map (-1) ;; Ok pno
  end.

Definition approx_pages (page_map : list (Z * Z)) (cum_lens : list Z)
    (start_idx end_idx : Z) : res (Z * Z) :=
  start_char <- Py.getitem cum_lens start_idx ;;
  end_char <- (if end_idx + 1 <? Py.llen cum_lens
               then Py.getitem cum_lens (end_idx + 1)
               else Py.getitem cum_lens (-1)) ;;
  p_start <- find_page page_map start_char ;;
  p_end <- find_page page_map end_char ;;
  Ok (p_start, p_end).

(** ** Records *)

(** A record of the index; [rec_embedding] is the key the embedding step
    adds, absent until then.  [F] is the type of a float. *)
Record record (F : Type) : Type := {
  rec_id : string;
  rec_book : string;
  rec_chunk_id : Z;
  rec_text : string;
  rec_pages : Z * Z;
  rec_source : string;
  rec_embedding : option (list F)
}.

Arguments Build_record {F}.
Arguments rec_id {F}.
Arguments rec_book {F}.
Arguments rec_chunk_id {F}.
Arguments rec_text {F}.
Arguments rec_pages {F}.
Arguments rec_source {F}.
Arguments rec_embedding {F}.

Record metadata : Type := {
  md_model : string;
  md_chunk_size : Z;
  md_chunk_overlap : Z;
  md_total_chunks : Z;
  md_embedding_dim : Z
}.

Record index (F : Type) : Type := {
  idx_records : list (record F);
  idx_metadata : metadata
}.

Arguments Build_index {F}.
Arguments idx_records {F}.
Arguments idx_metadata {F}.

Definition MODEL_NAME : string := "sentence-transformers/all-MiniLM-L6-v2".

Section Main.

Context {F : Type}.

(** The loop [for i, ch in enumerate(chunks)] of the main program. *)
Fixpoint build_records (book_name name : string) (page_map : list (Z * Z))
    (cum_lens : list Z) (chunks : list (Z * string))
  : res (list (record F)) :=
  match chunks with
  | [] => Ok []
  | (i, ch) :: rest =>
      '(p_start, p_end) <- approx_pages page_map cum_lens i i ;;
      let rec :=
        {| rec_id := (book_name ++ "__chunk_" ++ Py.str_of_int i)%string;
           rec_book := book_name;
           rec_chunk_id := i;
           rec_text := ch;
           rec_pages := (p_start, p_end);
           rec_source := (name ++ "#pp." ++ Py.str_of_int p_start ++ "-"
                          ++ Py.str_of_int p_end)%string;
           rec_embedding := None |} in
      recs <- build_records book_name name page_map cum_lens rest ;;
      Ok (rec :: recs)
  end.

(** The start offsets the main program computes for the chunks. *)
Definition cum_lens_of (chunks : list string) : list Z :=
  Py.cumsum (0 :: map Py.len chunks).

(** The body of the loop over the PDF files, from the pages of one
    file to its records. *)
Definition process_pages (name : string) (pages : list (Z * string))
  : res (list (record F)) :=
  let book_name := Py.replace_char "_" " " (Py.stem name) in
  match pages with
  | [] => Ok []
  | _ =>
      let '(full_text, page_map) := build_page_map pages in
      let combined := combined_of full_text in
      let chunks := chunk_text combined CHUNK_SIZE CHUNK_OVERLAP in
      let cum_lens := cum_lens_of chunks in
      build_records book_name name page_map cum_lens (Py.enumerate chunks)
  end.

Definition process_pdf (pdf : pdf_file) : res (list (record F)) :=
  process_pages (pdf_name pdf) (read_pdf_text pdf).

(** The loop over the PDF files, given in the order of [sorted]. *)
Fixpoint process_all (pdfs : list pdf_file) (records : list (record F))
  : res (list (record F)) :=
  match pdfs with
  | [] => Ok records
  | pdf :: rest =>
      recs <- process_pdf pdf ;;
      process_all rest (records ++ recs)
  end.

(** The loop [for i, rec in enumerate(records)] that stores
    [embeddings[i]] in each record. *)
Fixpoint attach_embeddings (records : list (Z * record F))
    (embeddings : list (list F)) : res (list (record F)) :=
  match records with
  | [] => Ok []
  | (i, rec) :: rest =>
      v <- Py.getitem embeddings i ;;
      let rec' :=
        {| rec_id := rec_id rec;
           rec_book := rec_book rec;
           rec_chunk_id := rec_chunk_id rec;
           rec_text := rec_text rec;
           rec_pages := rec_pages rec;
           rec_source := rec_source rec;
           rec_embedding := Some v |} in
      recs <- attach_embeddings rest embeddings ;;
      Ok (rec' :: recs)
  end.

(** The embedding step and the write: [Ok None] when there is no text
    and nothing is written, [Ok (Some idx)] when [idx] is written. *)
Definition embed_and_write (encode : list string -> list (list F))
    (records : list (record F)) : res (option (index F)) :=
  let all_texts := map rec_text records in
  match all_texts with
  | [] => Ok None
  | _ =>
      let embeddings := encode all_texts in
      records' <- attach_embeddings (Py.enumerate records) embeddings ;;
      dim <- (if 0 <? Py.llen embeddings
              then v <- Py.getitem embeddings 0 ;; Ok (Py.llen v)
              else Ok 0) ;;
      Ok (Some {| idx_records := records';
                  idx_metadata :=
                    {| md_model := MODEL_NAME;
                       md_chunk_size := CHUNK_SIZE;
                       md_chunk_overlap := CHUNK_OVERLAP;
                       md_total_chunks := Py.llen records';
                       md_embedding_dim := dim |} |})
  end.

Definition main (pdfs : list pdf_file)
    (encode : list string -> list (list F)) : res (option (index F)) :=
  records <- process_all pdfs [] ;;
  embed_and_write encode records.

End Main.

(** ** Closed forms of the chunker, for the proofs *)

(** The stride of the windows. *)
Definition step_of (chunk_size overlap : Z) : Z :=
  Z.max 1 (chunk_size - overlap).

(** The [k] windows that follow each other from [start]. *)
Fixpoint windows_from (n chunk_size step : Z) (k : nat) (start : Z)
  : list (Z * Z) :=
  match k with
  | O => []
  | S k' =>
      (start, Z.min n (start + chunk_size))
        :: windows_from n chunk_size step k' (start + step)
  end.

(** The number of iterations of the loop that is at [start]. *)
Definition count_from (n step start : Z) : nat :=
  if start <? n then Z.to_nat ((n - start - 1) / step + 1) else O.

(** The number of chunks of a text of [n] characters. *)
Definition nchunks (n step : Z) : nat := count_from n step 0.

(** The window of the chunk of index [i]. *)
Definition window (n chunk_size step : Z) (i : nat) : Z * Z :=
  (Z.of_nat i * step, Z.min n (Z.of_nat i * step + chunk_size)).

(** The substring of [text] on a window. *)
Definition slice_span (text : string) (sp : Z * Z) : string :=
  Py.slice text (fst sp) (snd sp).

(** The sum of the lengths of a list of strings. *)
Definition total_len (l : list string) : Z :=
  fold_right (fun s acc => Py.len s + acc) 0 l.

(** The result of [find_page] on a page map that is not empty: the page
    of the first entry that reaches [pos], else the page of the last
    entry. *)
Fixpoint page_at (pno0 : Z) (page_map : list (Z * Z)) (pos : Z) : Z :=
  match page_map with
  | [] => pno0
  | (pno, upto) :: rest => if pos <=? upto then pno else page_at pno rest pos
  end.

(** A string of [n] copies of the character [c]. *)
Fixpoint repeat_char (n : nat) (c : ascii) : string :=
  match n with
  | O => ""
  | S k => String c (repeat_char k c)
  end.

(** A file that [pypdf] reads without trouble, with the given page
    texts. *)
Definition plain_pdf (name : string) (texts : list string) : pdf_file :=
  {| pdf_name := name;
     pdf_parses := true;
     pdf_is_encrypted := false;
     pdf_decrypt_raises := false;
     pdf_is_encrypted_after := false;
     pdf_pages := map Extracted texts |}.

(** The record the main program builds for the chunk [ch] of index [i],
    when no lookup raises. *)
Definition record_of {F : Type} (book_name name : string)
    (page_map : list (Z * Z)) (cum_lens : list Z) (ich : Z * string)
  : record F :=
  let '(i, ch) := ich in
  let p_start := page_at 0 page_map (nth (Z.to_nat i) cum_lens 0) in
  let p_end := page_at 0 page_map (nth (Z.to_nat (i + 1)) cum_lens 0) in
  {| rec_id := (book_name ++ "__chunk_" ++ Py.str_of_int i)%string;
     rec_book := book_name;
     rec_chunk_id := i;
     rec_text := ch;
     rec_pages := (p_start, p_end);
     rec_source := (name ++ "#pp." ++ Py.str_of_int p_start ++ "-"
                    ++ Py.str_of_int p_end)%string;
     rec_embedding := None |}.

(** A record with its vector stored. *)
Definition with_embedding {F : Type} (rec : record F) (v : list F)
  : record F :=
  {| rec_id := rec_id rec;
     rec_book := rec_book rec;
     rec_chunk_id := rec_chunk_id rec;
     rec_text := rec_text rec;
     rec_pages := rec_pages rec;
     rec_source := rec_source rec;
     rec_embedding := Some v |}.

(** Page numbers that never decrease along a page map. *)
Fixpoint pnos_sorted (lo : Z) (page_map : list (Z * Z)) : Prop :=
  match page_map with
  | [] => True
  | (pno, _) :: rest => lo <= pno /\ pnos_sorted pno rest
  end.

(** The page map of [pages], when the texts before them add up to [acc]
    characters. *)
Fixpoint page_offsets (acc : Z) (pages : list (Z * string)) : list (Z * Z) :=
  match pages with
  | [] => []
  | (pno, ptxt) :: rest =>
      (pno, acc + Py.len ptxt) :: page_offsets (acc + Py.len ptxt) rest
  end.

(** The records of one file, when no lookup raises. *)
Definition records_of_pages {F : Type} (name : string)
    (pages : list (Z * string)) : list (record F) :=
  match pages with
  | [] => []
  | _ =>
      let chunks :=
        chunk_text (combined_of (map snd pages)) CHUNK_SIZE CHUNK_OVERLAP in
      map (record_of (Py.replace_char "_" " " (Py.stem name)) name
             (page_offsets 0 pages) (cum_lens_of chunks))
          (Py.enumerate chunks)
  end.

(** Whether the character [c] occurs in [s]. *)
Fixpoint has_char (c : ascii) (s : string) : bool :=
  match s with
  | EmptyString => false
  | String d r => Ascii.eqb d c || has_char c r
  end.

(** The book name the main program gives a file. *)
Definition book_name_of (name : string) : string :=
  Py.replace_char "_" " " (Py.stem name).

(** Whether [read_pdf_text] gives up on a file before it reads a page. *)
Definition unreadable (pdf : pdf_file) : bool :=
  negb (pdf_parses pdf)
  || (pdf_is_encrypted pdf
      && (pdf_decrypt_raises pdf || pdf_is_encrypted_after pdf)).

(** * Properties *)

(** ** Strings *)

Lemma length_append (s t : string) :
  String.length (s ++ t) = (String.length s + String.length t)%nat.
Proof.
  induction s as [|c s IH]; simpl; [reflexivity | now rewrite IH].
Qed.

Lemma length_substring (s : string) (a m : nat) :
  String.length (substring a m s) = Nat.min m (String.length s - a).
Proof.
  revert a m. induction s as [|c s IH]; intros a m.
  - destruct a, m; reflexivity.
  - destruct a as [|a].
    + destruct m as [|m]; simpl; [reflexivity | now rewrite IH, Nat.sub_0_r].
    + simpl. apply IH.
Qed.

Lemma len_nonneg (s : string) : 0 <= Py.len s.
Proof. unfold Py.len. lia. Qed.

Lemma len_empty_iff (s : string) : Py.len s = 0 <-> s = "".
Proof.
  unfold Py.len. destruct s; simpl; split; intros H;
    try reflexivity; try discriminate; lia.
Qed.

(** The length of [text[a:b]] for offsets inside the text. *)
Lemma len_slice (text : string) (a b : Z) :
  0 <= a -> 0 <= b <= Py.len text ->
  Py.len (Py.slice text a b) = Z.max 0 (b - a).
Proof.
  intros Ha Hb. unfold Py.slice, Py.clamp.
  destruct (Z.ltb_spec a 0) as [?|_]; [lia|].
  destruct (Z.ltb_spec b 0) as [?|_]; [lia|].
  unfold Py.len in *. rewrite length_substring. lia.
Qed.

Lemma len_join_empty (l : list string) : Py.len (Py.join "" l) = total_len l.
Proof.
  unfold Py.join, Py.len.
  induction l as [|s l IH]; [reflexivity|].
  destruct l as [|t l].
  - cbn. unfold Py.len. lia.
  - change (concat "" (s :: t :: l)) with (s ++ "" ++ concat "" (t :: l))%string.
    rewrite !length_append. change (total_len (s :: t :: l))
      with (Py.len s + total_len (t :: l)).
    unfold Py.len. simpl String.length at 2. lia.
Qed.

Lemma len_combined (l : list string) :
  l <> [] ->
  Py.len (combined_of l) = total_len l + 2 * (Py.llen l - 1).
Proof.
  unfold combined_of, Py.join, Py.len, Py.llen.
  induction l as [|s l IH]; [congruence|]. intros _.
  destruct l as [|t l].
  - cbn. unfold Py.len. lia.
  - set (sep := String "010" (String "010" "")) in *.
    change (concat sep (s :: t :: l)) with (s ++ sep ++ concat sep (t :: l))%string.
    rewrite !length_append. change (total_len (s :: t :: l))
      with (Py.len s + total_len (t :: l)).
    assert (H : t :: l <> []) by congruence. specialize (IH H).
    unfold Py.len. change (String.length sep) with 2%nat.
    change (List.length (s :: t :: l)) with (S (List.length (t :: l))). lia.
Qed.

(** ** The loop of the chunker *)

Lemma step_of_pos (chunk_size overlap : Z) : 1 <= step_of chunk_size overlap.
Proof. unfold step_of. lia. Qed.

Section ChunkLoop.

Variables (text : string) (n chunk_size step : Z).
Hypothesis step_pos : 1 <= step.

Lemma count_from_next (start : Z) :
  start < n ->
  count_from n step start = S (count_from n step (start + step)).
Proof.
  intros Hlt. unfold count_from.
  destruct (Z.ltb_spec start n) as [_|?]; [|lia].
  destruct (Z.ltb_spec (start + step) n) as [Hin|Hout].
  - replace (n - start - 1) with ((n - (start + step) - 1) + 1 * step) by lia.
    rewrite Z.div_add by lia.
    assert (0 <= (n - (start + step) - 1) / step)
      by (apply Z.div_pos; lia).
    lia.
  - rewrite Z.div_small by lia. reflexivity.
Qed.

Lemma count_from_done (start : Z) :
  n <= start -> count_from n step start = O.
Proof.
  intros Hge. unfold count_from.
  destruct (Z.ltb_spec start n); [lia | reflexivity].
Qed.

(** With more fuel than characters left the loop exits, and it has
    appended one window per iteration. *)
Lemma span_loop_enough (fuel : nat) :
  forall (start : Z) (spans : list (Z * Z)),
    (Z.to_nat (n - start) < fuel)%nat ->
    span_loop fuel n chunk_size step start spans
    = Some (spans
            ++ windows_from n chunk_size step (count_from n step start) start).
Proof.
  induction fuel as [|fuel IH]; intros start spans Hfuel; [lia|].
  simpl. destruct (Z.ltb_spec start n) as [Hlt|Hge].
  - rewrite IH by lia. rewrite (count_from_next start Hlt).
    simpl. now rewrite <- app_assoc.
  - rewrite count_from_done by lia. simpl. now rewrite app_nil_r.
Qed.

(** The loop of [chunk_text] is the loop of the windows, with the
    substring taken on each window. *)
Lemma chunk_loop_spans (fuel : nat) :
  forall (start : Z) (spans : list (Z * Z)),
    chunk_loop fuel text n chunk_size step start (map (slice_span text) spans)
    = option_map (map (slice_span text))
        (span_loop fuel n chunk_size step start spans).
Proof.
  induction fuel as [|fuel IH]; intros start spans; [reflexivity|].
  simpl. destruct (start <? n); [|reflexivity].
  rewrite <- IH. now rewrite map_app.
Qed.

Lemma windows_from_length (k : nat) :
  forall start, List.length (windows_from n chunk_size step k start) = k.
Proof.
  induction k as [|k IH]; intros start; simpl; [reflexivity | now rewrite IH].
Qed.

Lemma windows_from_nth (k : nat) :
  forall (start : Z) (i : nat),
    (i < k)%nat ->
    nth_error (windows_from n chunk_size step k start) i
    = Some (start + Z.of_nat i * step,
            Z.min n (start + Z.of_nat i * step + chunk_size)).
Proof.
  induction k as [|k IH]; intros start i Hi; [lia|].
  destruct i as [|i]; cbn [windows_from nth_error].
  - now rewrite Z.mul_0_l, Z.add_0_r.
  - rewrite IH by lia.
    replace (start + step + Z.of_nat i * step)
      with (start + Z.of_nat (S i) * step) by lia.
    reflexivity.
Qed.

(** Every window but the last of the loop starts before the end. *)
Lemma count_from_bound (i : nat) :
  (i < count_from n step 0)%nat <-> Z.of_nat i * step < n.
Proof.
  unfold count_from. destruct (Z.ltb_spec 0 n) as [Hn|Hn].
  - replace (n - 0 - 1) with (n - 1) by lia.
    assert (H0 : 0 <= (n - 1) / step) by (apply Z.div_pos; lia).
    split; intros H.
    + assert (Z.of_nat i <= (n - 1) / step) by lia.
      assert (step * ((n - 1) / step) <= n - 1)
        by (apply Z.mul_div_le; lia).
      nia.
    + assert (Z.of_nat i <= (n - 1) / step)
        by (apply Z.div_le_lower_bound; lia).
      lia.
  - split; intros H; [lia | nia].
Qed.

End ChunkLoop.

Lemma chunk_spans_closed (n chunk_size overlap : Z) :
  chunk_spans n chunk_size overlap
  = windows_from n chunk_size (step_of chunk_size overlap)
      (nchunks n (step_of chunk_size overlap)) 0.
Proof.
  unfold chunk_spans, chunk_spans_fuel, chunk_fuel, nchunks.
  fold (step_of chunk_size overlap).
  rewrite span_loop_enough by (try apply step_of_pos; lia).
  reflexivity.
Qed.

Lemma chunk_text_closed (text : string) (chunk_size overlap : Z) :
  chunk_text text chunk_size overlap
  = map (slice_span text) (chunk_spans (Py.len text) chunk_size overlap).
Proof.
  unfold chunk_text, chunk_text_fuel, chunk_spans, chunk_spans_fuel.
  change (@nil string) with (map (slice_span text) []) at 1.
  rewrite chunk_loop_spans.
  destruct (span_loop _ _ _ _ _ _); reflexivity.
Qed.

Lemma chunk_spans_length (n chunk_size overlap : Z) :
  List.length (chunk_spans n chunk_size overlap)
  = nchunks n (step_of chunk_size overlap).
Proof. rewrite chunk_spans_closed. apply windows_from_length. Qed.

Lemma chunk_spans_nth (n chunk_size overlap : Z) (i : nat) :
  (i < nchunks n (step_of chunk_size overlap))%nat ->
  nth_error (chunk_spans n chunk_size overlap) i
  = Some (window n chunk_size (step_of chunk_size overlap) i).
Proof.
  intros Hi. rewrite chunk_spans_closed, windows_from_nth by exact Hi.
  reflexivity.
Qed.

(** A window the loop has recorded, by its index. *)
Lemma chunk_spans_In (n chunk_size overlap : Z) (sp : Z * Z) :
  In sp (chunk_spans n chunk_size overlap) <->
  exists i : nat,
    Z.of_nat i * step_of chunk_size overlap < n
    /\ sp = window n chunk_size (step_of chunk_size overlap) i.
Proof.
  pose proof (step_of_pos chunk_size overlap) as Hs.
  split.
  - intros Hin. apply In_nth_error in Hin. destruct Hin as [i Hi].
    assert (Hlt : (i < nchunks n (step_of chunk_size overlap))%nat).
    { rewrite <- chunk_spans_length. apply nth_error_Some. congruence. }
    exists i. split.
    + now apply count_from_bound.
    + rewrite chunk_spans_nth in Hi by exact Hlt. congruence.
  - intros [i [Hi ->]]. apply (nth_error_In _ i).
    apply chunk_spans_nth. now apply count_from_bound.
Qed.

(** ** Lists *)

Lemma getitem_nth {A : Type} (l : list A) (i : Z) (d : A) :
  0 <= i < Py.llen l ->
  Py.getitem l i = Ok (nth (Z.to_nat i) l d).
Proof.
  intros Hi. unfold Py.getitem, Py.llen in *.
  destruct (Z.ltb_spec i 0) as [?|_]; [lia|].
  destruct (Z.ltb_spec i 0) as [?|_]; [lia|].
  destruct (Z.leb_spec (Z.of_nat (List.length l)) i) as [?|_]; [lia|].
  simpl. destruct (nth_error l (Z.to_nat i)) as [a|] eqn:E.
  - now rewrite (nth_error_nth _ _ d E).
  - apply nth_error_None in E. lia.
Qed.

Lemma getitem_out {A : Type} (l : list A) (i : Z) :
  Py.llen l <= i -> Py.getitem l i = Raise IndexError.
Proof.
  intros Hi. unfold Py.getitem, Py.llen in *.
  destruct (Z.ltb_spec i 0) as [?|_]; [lia|].
  destruct (Z.ltb_spec i 0) as [?|_]; [lia|].
  destruct (Z.leb_spec (Z.of_nat (List.length l)) i) as [_|?]; [|lia].
  reflexivity.
Qed.

Lemma nth_last {A : Type} (l : list A) (d : A) :
  nth (List.length l - 1) l d = last l d.
Proof.
  induction l as [|a l IH]; [reflexivity|].
  destruct l as [|b l]; [reflexivity|].
  change (last (a :: b :: l) d) with (last (b :: l) d). rewrite <- IH.
  simpl. now rewrite Nat.sub_0_r.
Qed.

Lemma last_default {A : Type} (l : list A) (d d' : A) :
  l <> [] -> last l d = last l d'.
Proof.
  induction l as [|a l IH]; intros Hne; [congruence|].
  destruct l as [|b l]; [reflexivity|].
  change (last (b :: l) d = last (b :: l) d'). apply IH. congruence.
Qed.

(** [l[-1]] is the last element of a list that is not empty. *)
Lemma getitem_last {A : Type} (l : list A) (d : A) :
  l <> [] -> Py.getitem l (-1) = Ok (last l d).
Proof.
  intros Hne.
  assert (Hlen : 1 <= Py.llen l).
  { unfold Py.llen. destruct l; [congruence | simpl; lia]. }
  unfold Py.getitem. change (-1 <? 0) with true. cbv iota.
  destruct (Z.ltb_spec (-1 + Py.llen l) 0) as [?|_]; [lia|].
  destruct (Z.leb_spec (Py.llen l) (-1 + Py.llen l)) as [?|_]; [lia|].
  cbn [orb]. unfold Py.llen in *.
  replace (Z.to_nat (-1 + Z.of_nat (List.length l)))
    with (List.length l - 1)%nat by lia.
  destruct (nth_error l (List.length l - 1)) as [a|] eqn:E.
  - rewrite <- (nth_last l d). now rewrite (nth_error_nth _ _ d E).
  - apply nth_error_None in E. lia.
Qed.

Lemma enumerate_from_length {A : Type} (l : list A) :
  forall k, List.length (Py.enumerate_from k l) = List.length l.
Proof.
  induction l as [|a l IH]; intros k; simpl; [reflexivity | now rewrite IH].
Qed.

Lemma enumerate_from_snd {A : Type} (l : list A) :
  forall k, map snd (Py.enumerate_from k l) = l.
Proof.
  induction l as [|a l IH]; intros k; simpl; [reflexivity | now rewrite IH].
Qed.

Lemma enumerate_from_nth {A : Type} (l : list A) :
  forall (k : Z) (i : nat) (a : A),
    nth_error l i = Some a ->
    nth_error (Py.enumerate_from k l) i = Some (k + Z.of_nat i, a).
Proof.
  induction l as [|b l IH]; intros k i a Hi.
  - destruct i; discriminate.
  - destruct i as [|i]; cbn [Py.enumerate_from nth_error] in *.
    + injection Hi as ->. now rewrite Z.add_0_r.
    + rewrite (IH _ _ _ Hi).
      replace (k + 1 + Z.of_nat i) with (k + Z.of_nat (S i)) by lia.
      reflexivity.
Qed.

Lemma enumerate_from_In {A : Type} (l : list A) :
  forall (k i : Z) (a : A),
    In (i, a) (Py.enumerate_from k l) ->
    k <= i < k + Py.llen l /\ nth_error l (Z.to_nat (i - k)) = Some a.
Proof.
  unfold Py.llen.
  induction l as [|b l IH]; intros k i a Hin; [contradiction|].
  cbn [Py.enumerate_from] in Hin. destruct Hin as [Heq|Hin].
  - injection Heq as <- <-. rewrite Z.sub_diag. simpl List.length.
    split; [lia | reflexivity].
  - apply IH in Hin. destruct Hin as [Hr Hn]. simpl List.length.
    split; [lia|].
    replace (Z.to_nat (i - k)) with (S (Z.to_nat (i - (k + 1)))) by lia.
    exact Hn.
Qed.

Lemma cumsum_from_length (l : list Z) :
  forall acc, List.length (Py.cumsum_from acc l) = List.length l.
Proof.
  induction l as [|x l IH]; intros acc; simpl; [reflexivity | now rewrite IH].
Qed.

(** The running sums of numbers that are not negative never decrease. *)
Lemma cumsum_from_mono (l : list Z) :
  (forall x, In x l -> 0 <= x) ->
  forall (acc : Z) (i j : nat),
    (i <= j < List.length l)%nat ->
    acc <= nth i (Py.cumsum_from acc l) 0
    /\ nth i (Py.cumsum_from acc l) 0 <= nth j (Py.cumsum_from acc l) 0.
Proof.
  induction l as [|x l IH]; intros Hpos acc i j Hij; [simpl in Hij; lia|].
  assert (Hx : 0 <= x) by (apply Hpos; now left).
  assert (Hl : forall y, In y l -> 0 <= y) by (intros y Hy; apply Hpos; now right).
  simpl in Hij. cbn [Py.cumsum_from].
  destruct i as [|i]; destruct j as [|j]; cbn [nth]; try lia.
  - destruct (IH Hl (acc + x) O j) as [H1 H2]; [lia|]. cbn [nth] in *.
    destruct l; cbn in *; lia.
  - destruct (IH Hl (acc + x) i j) as [H1 H2]; [lia|]. lia.
Qed.

(** ** The page offset map *)

Lemma total_len_app (l1 l2 : list string) :
  total_len (l1 ++ l2) = total_len l1 + total_len l2.
Proof.
  unfold total_len. induction l1 as [|s l1 IH]; simpl; [reflexivity | lia].
Qed.

Lemma total_len_nonneg (l : list string) : 0 <= total_len l.
Proof.
  unfold total_len. induction l as [|s l IH]; simpl; [lia|].
  pose proof (len_nonneg s). lia.
Qed.

Lemma fold_page_map_step (pages : list (Z * string)) :
  forall (full_text : list string) (page_map : list (Z * Z)),
    fold_left page_map_step pages (full_text, page_map)
    = (full_text ++ map snd pages,
       page_map ++ page_offsets (total_len full_text) pages).
Proof.
  induction pages as [|[pno ptxt] pages IH]; intros full_text page_map.
  - simpl. now rewrite !app_nil_r.
  - cbn [fold_left page_map_step]. rewrite IH.
    rewrite len_join_empty, total_len_app.
    cbn [map snd page_offsets]. rewrite <- !app_assoc.
    replace (total_len [ptxt]) with (Py.len ptxt) by (cbn; lia).
    reflexivity.
Qed.

Lemma build_page_map_closed (pages : list (Z * string)) :
  build_page_map pages = (map snd pages, page_offsets 0 pages).
Proof. unfold build_page_map. now rewrite fold_page_map_step. Qed.

Lemma page_offsets_fst (pages : list (Z * string)) :
  forall acc, map fst (page_offsets acc pages) = map fst pages.
Proof.
  induction pages as [|[pno ptxt] pages IH]; intros acc; simpl;
    [reflexivity | now rewrite IH].
Qed.

Lemma page_offsets_nonnil (pages : list (Z * string)) (acc : Z) :
  pages <> [] -> page_offsets acc pages <> [].
Proof. destruct pages as [|[pno ptxt] pages]; simpl; congruence. Qed.

(** Every count of the map is at least the count before its pages. *)
Lemma page_offsets_lower (pages : list (Z * string)) :
  forall (acc : Z) (e : Z * Z),
    In e (page_offsets acc pages) -> acc <= snd e.
Proof.
  induction pages as [|[pno ptxt] pages IH]; intros acc e Hin; [contradiction|].
  pose proof (len_nonneg ptxt). destruct Hin as [<-|Hin]; [simpl; lia|].
  apply IH in Hin. lia.
Qed.

Lemma page_offsets_adjacent (pages : list (Z * string)) :
  forall (acc : Z) (i : nat) (e1 e2 : Z * Z),
    nth_error (page_offsets acc pages) i = Some e1 ->
    nth_error (page_offsets acc pages) (S i) = Some e2 ->
    snd e1 <= snd e2.
Proof.
  induction pages as [|[pno ptxt] pages IH]; intros acc i e1 e2 H1 H2.
  - destruct i; discriminate.
  - destruct i as [|i]; cbn [page_offsets nth_error] in H1, H2.
    + injection H1 as <-.
      change (nth_error (page_offsets (acc + Py.len ptxt) pages) 0 = Some e2)
        in H2.
      apply nth_error_In in H2. apply page_offsets_lower in H2.
      pose proof (len_nonneg ptxt). simpl. lia.
    + exact (IH _ _ _ _ H1 H2).
Qed.

Lemma page_offsets_last (pages : list (Z * string)) :
  forall (acc : Z) (d : Z * Z),
    pages <> [] ->
    snd (last (page_offsets acc pages) d) = acc + total_len (map snd pages).
Proof.
  induction pages as [|[pno ptxt] pages IH]; intros acc d Hne; [congruence|].
  destruct pages as [|q pages].
  - cbn. lia.
  - change (page_offsets acc ((pno, ptxt) :: q :: pages))
      with ((pno, acc + Py.len ptxt)
              :: page_offsets (acc + Py.len ptxt) (q :: pages)).
    assert (Hq : page_offsets (acc + Py.len ptxt) (q :: pages) <> [])
      by (apply page_offsets_nonnil; congruence).
    destruct (page_offsets (acc + Py.len ptxt) (q :: pages)) as [|e l] eqn:E;
      [congruence|].
    change (last ((pno, acc + Py.len ptxt) :: e :: l) d) with (last (e :: l) d).
    rewrite <- E, IH by congruence.
    change (total_len (map snd ((pno, ptxt) :: q :: pages)))
      with (Py.len ptxt + total_len (map snd (q :: pages))).
    lia.
Qed.

(** The pages [read_pdf_text] returns are numbered upwards. *)
Lemma numbered_pages_sorted (l : list extract_result) :
  forall (k lo acc : Z),
    lo <= k + 1 ->
    pnos_sorted lo
      (page_offsets acc
         (map (fun '(i, page) => (i + 1, page_text page))
              (Py.enumerate_from k l))).
Proof.
  induction l as [|e l IH]; intros k lo acc Hlo; simpl; [exact I|].
  split; [lia|]. apply IH. lia.
Qed.

Lemma read_pdf_text_sorted (pdf : pdf_file) (acc : Z) :
  pnos_sorted 1 (page_offsets acc (read_pdf_text pdf)).
Proof.
  unfold read_pdf_text.
  destruct (negb (pdf_parses pdf)); [exact I|].
  destruct (pdf_is_encrypted pdf && pdf_decrypt_raises pdf); [exact I|].
  destruct (pdf_is_encrypted pdf && pdf_is_encrypted_after pdf); [exact I|].
  apply numbered_pages_sorted. lia.
Qed.

(** ** The page lookup *)

Lemma page_at_scan (page_map : list (Z * Z)) (pos : Z) :
  forall (pno0 pno : Z),
    find_page_scan page_map pos = Some pno ->
    page_at pno0 page_map pos = pno.
Proof.
  induction page_map as [|[p upto] rest IH]; intros pno0 pno Hs;
    [discriminate|].
  cbn [find_page_scan page_at] in *. destruct (pos <=? upto).
  - congruence.
  - now apply IH.
Qed.

Lemma page_at_no_match (page_map : list (Z * Z)) (pos : Z) :
  forall (pno0 d : Z),
    find_page_scan page_map pos = None ->
    page_at pno0 page_map pos = fst (last page_map (pno0, d)).
Proof.
  induction page_map as [|[p upto] rest IH]; intros pno0 d Hs; [reflexivity|].
  cbn [find_page_scan page_at] in *. destruct (pos <=? upto); [discriminate|].
  rewrite (IH p upto Hs). destruct rest as [|e rest]; [reflexivity|].
  change (last ((p, upto) :: e :: rest) (pno0, d))
    with (last (e :: rest) (pno0, d)).
  now rewrite (last_default (e :: rest) (p, upto) (pno0, d)).
Qed.

(** On a page map that is not empty [find_page] returns, and what it
    returns is [page_at]. *)
Lemma find_page_page_at (page_map : list (Z * Z)) (pos pno0 : Z) :
  page_map <> [] ->
  find_page page_map pos = Ok (page_at pno0 page_map pos).
Proof.
  intros Hne. unfold find_page.
  destruct (find_page_scan page_map pos) as [pno|] eqn:Hs.
  - now rewrite (page_at_scan _ _ pno0 pno Hs).
  - rewrite (getitem_last page_map (pno0, 0) Hne).
    rewrite (page_at_no_match _ _ pno0 0 Hs).
    destruct (last page_map (pno0, 0)); reflexivity.
Qed.

Lemma page_at_lower (page_map : list (Z * Z)) (pos : Z) :
  forall pno0, pnos_sorted pno0 page_map -> pno0 <= page_at pno0 page_map pos.
Proof.
  induction page_map as [|[p upto] rest IH]; intros pno0 Hs; simpl; [lia|].
  destruct Hs as [Hp Hs]. destruct (pos <=? upto); [exact Hp|].
  specialize (IH p Hs). lia.
Qed.

(** A later position is on the same page or on a later one. *)
Lemma page_at_mono (page_map : list (Z * Z)) (pos pos' : Z) :
  pos <= pos' ->
  forall pno0,
    pnos_sorted pno0 page_map ->
    page_at pno0 page_map pos <= page_at pno0 page_map pos'.
Proof.
  intros Hpos.
  induction page_map as [|[p upto] rest IH]; intros pno0 Hs; simpl; [lia|].
  destruct Hs as [Hp Hs].
  destruct (Z.leb_spec pos upto) as [H1|H1];
    destruct (Z.leb_spec pos' upto) as [H2|H2]; try lia.
  - now apply page_at_lower.
  - now apply IH.
Qed.

Lemma page_at_default (page_map : list (Z * Z)) (pos d d' : Z) :
  page_map <> [] -> page_at d page_map pos = page_at d' page_map pos.
Proof. destruct page_map as [|[p upto] rest]; [congruence | reflexivity]. Qed.

Lemma pnos_sorted_weaken (page_map : list (Z * Z)) (lo lo' : Z) :
  lo' <= lo -> pnos_sorted lo page_map -> pnos_sorted lo' page_map.
Proof.
  destruct page_map as [|[p upto] rest]; simpl; [trivial|].
  intros Hlo [Hp Hs]. split; [lia | exact Hs].
Qed.

(** ** The record builder *)

Lemma cum_lens_of_length (chunks : list string) :
  Py.llen (cum_lens_of chunks) = Py.llen chunks + 1.
Proof.
  unfold cum_lens_of, Py.cumsum, Py.llen.
  rewrite cumsum_from_length. simpl List.length. rewrite length_map. lia.
Qed.

(** The offsets the main program takes for the chunks never decrease. *)
Lemma cum_lens_of_mono (chunks : list string) (i j : nat) :
  (i <= j <= List.length chunks)%nat ->
  nth i (cum_lens_of chunks) 0 <= nth j (cum_lens_of chunks) 0.
Proof.
  intros Hij. unfold cum_lens_of, Py.cumsum.
  apply cumsum_from_mono.
  - intros x [<-|Hx]; [lia|].
    apply in_map_iff in Hx. destruct Hx as [s [<- _]]. apply len_nonneg.
  - simpl List.length. rewrite length_map. lia.
Qed.

Section Builder.

Context {F : Type}.

Lemma build_records_closed (book_name name : string)
    (page_map : list (Z * Z)) (cum_lens : list Z)
    (chunks : list (Z * string)) :
  page_map <> [] ->
  (forall i ch, In (i, ch) chunks -> 0 <= i /\ i + 1 < Py.llen cum_lens) ->
  @build_records F book_name name page_map cum_lens chunks
  = Ok (map (record_of book_name name page_map cum_lens) chunks).
Proof.
  intros Hpm. induction chunks as [|[i ch] rest IH]; intros Hidx;
    [reflexivity|].
  destruct (Hidx i ch (or_introl eq_refl)) as [Hi0 Hi1].
  cbn [build_records]. unfold approx_pages.
  rewrite (getitem_nth cum_lens i 0) by lia. cbn [bind].
  destruct (Z.ltb_spec (i + 1) (Py.llen cum_lens)) as [_|?]; [|lia].
  rewrite (getitem_nth cum_lens (i + 1) 0) by lia. cbn [bind].
  rewrite (find_page_page_at page_map _ 0 Hpm). cbn [bind].
  rewrite (find_page_page_at page_map _ 0 Hpm). cbn [bind].
  rewrite IH by (intros j c Hj; apply (Hidx j c); now right).
  reflexivity.
Qed.

Lemma process_pages_closed (name : string) (pages : list (Z * string)) :
  @process_pages F name pages = Ok (records_of_pages name pages).
Proof.
  unfold process_pages, records_of_pages.
  destruct pages as [|p pages]; [reflexivity|].
  rewrite build_page_map_closed.
  apply build_records_closed.
  - apply page_offsets_nonnil. congruence.
  - intros i ch Hin. apply enumerate_from_In in Hin.
    rewrite cum_lens_of_length. lia.
Qed.

Lemma process_all_closed (pdfs : list pdf_file) :
  forall records : list (record F),
    process_all pdfs records
    = Ok (records
          ++ flat_map
               (fun pdf => records_of_pages (pdf_name pdf) (read_pdf_text pdf))
               pdfs).
Proof.
  induction pdfs as [|pdf pdfs IH]; intros records.
  - simpl. now rewrite app_nil_r.
  - cbn [process_all flat_map]. unfold process_pdf.
    rewrite process_pages_closed. cbn [bind].
    rewrite IH. now rewrite app_assoc.
Qed.

Lemma records_of_pages_text (name : string) (pages : list (Z * string)) :
  pages <> [] ->
  map rec_text (@records_of_pages F name pages)
  = chunk_text (combined_of (map snd pages)) CHUNK_SIZE CHUNK_OVERLAP.
Proof.
  intros Hne. unfold records_of_pages.
  destruct pages as [|p pages]; [congruence|].
  rewrite map_map. unfold Py.enumerate.
  rewrite <- (enumerate_from_snd
                (chunk_text (combined_of (map snd (p :: pages)))
                   CHUNK_SIZE CHUNK_OVERLAP) 0) at 2.
  apply map_ext. intros [i ch]. reflexivity.
Qed.

(** ** The embedding step *)

Lemma attach_embeddings_closed (embeddings : list (list F))
    (records : list (record F)) :
  forall k : Z,
    0 <= k ->
    k + Py.llen records <= Py.llen embeddings ->
    attach_embeddings (Py.enumerate_from k records) embeddings
    = Ok (map (fun '(i, rec) =>
                 with_embedding rec (nth (Z.to_nat i) embeddings []))
            (Py.enumerate_from k records)).
Proof.
  unfold Py.llen.
  induction records as [|rec records IH]; intros k Hk Hlen; [reflexivity|].
  simpl List.length in Hlen.
  cbn [Py.enumerate_from attach_embeddings map].
  rewrite (getitem_nth embeddings k []) by (unfold Py.llen; lia).
  cbn [bind]. rewrite IH by lia. reflexivity.
Qed.

Lemma attach_embeddings_short (embeddings : list (list F))
    (records : list (record F)) :
  forall k : Z,
    0 <= k ->
    records <> [] ->
    Py.llen embeddings < k + Py.llen records ->
    attach_embeddings (Py.enumerate_from k records) embeddings
    = Raise IndexError.
Proof.
  unfold Py.llen.
  induction records as [|rec records IH]; intros k Hk Hne Hlen;
    [congruence|].
  simpl List.length in Hlen.
  cbn [Py.enumerate_from attach_embeddings].
  destruct (Z.le_gt_cases (Z.of_nat (List.length embeddings)) k) as [Hout|Hin].
  - now rewrite getitem_out by (unfold Py.llen; lia).
  - rewrite (getitem_nth embeddings k []) by (unfold Py.llen; lia).
    cbn [bind]. rewrite IH; [reflexivity | lia | | lia].
    destruct records; [simpl in Hlen; lia | congruence].
Qed.

End Builder.

(** ** The chunker *)

Example chunk_text_small :
  chunk_text "abcdef" 4 2 = ["abcd"; "cdef"; "ef"]
  /\ chunk_spans 6 4 2 = [(0, 4); (2, 6); (4, 6)].
Proof. split; reflexivity. Qed.

Example chunk_text_empty : chunk_text "" CHUNK_SIZE CHUNK_OVERLAP = [].
Proof. reflexivity. Qed.

(** What a window of the loop is: its start is a multiple of the step
    and is before the end of the text, its end is clamped to the text. *)
Lemma chunk_spans_window (n chunk_size overlap a b : Z) :
  In (a, b) (chunk_spans n chunk_size overlap) ->
  0 <= a < n /\ b = Z.min n (a + chunk_size)
  /\ exists i : nat, a = Z.of_nat i * step_of chunk_size overlap.
Proof.
  intros Hin. apply chunk_spans_In in Hin. destruct Hin as [i [Hi Heq]].
  unfold window in Heq. injection Heq as -> ->.
  pose proof (step_of_pos chunk_size overlap).
  repeat split; try lia. now exists i.
Qed.

Lemma some_inv {A : Type} (x y : A) : Some x = Some y -> y = x.
Proof. congruence. Qed.

Lemma some_pair_inv {A B : Type} (x a : A) (y b : B) :
  Some (x, y) = Some (a, b) -> a = x /\ b = y.
Proof. intros H. injection H as <- <-. now split. Qed.

Lemma nth_error_lt {A : Type} (l : list A) (i : nat) (a : A) :
  nth_error l i = Some a -> (i < List.length l)%nat.
Proof. intros H. apply nth_error_Some. congruence. Qed.

(** The starts of two windows that follow each other are one step
    apart. *)
Lemma chunk_spans_adjacent (n chunk_size overlap : Z) (i : nat)
    (a b a' b' : Z) :
  nth_error (chunk_spans n chunk_size overlap) i = Some (a, b) ->
  nth_error (chunk_spans n chunk_size overlap) (S i) = Some (a', b') ->
  a' - a = step_of chunk_size overlap.
Proof.
  intros H1 H2.
  pose proof (nth_error_lt _ _ _ H2) as Hi.
  rewrite chunk_spans_length in Hi.
  rewrite chunk_spans_nth in H1 by lia.
  rewrite chunk_spans_nth in H2 by exact Hi.
  unfold window in H1, H2.
  apply some_pair_inv in H1. apply some_pair_inv in H2.
  destruct H1 as [-> _]. destruct H2 as [-> _].
  rewrite Nat2Z.inj_succ, Z.mul_succ_l. lia.
Qed.

(** C6: for a text of length L, a chunk size above 0 and an overlap from
    0 to below the chunk size, the chunks of [chunk_text] are the
    substrings on the windows of the loop; a position is in [0, L)
    exactly when a window holds it; a window starts no later than the
    window before it ends; every chunk has at most [chunk_size]
    characters; and a text of length 0 has no chunk. *)
Theorem chunk_text_coverage (text : string) (chunk_size overlap : Z) :
  0 < chunk_size ->
  0 <= overlap < chunk_size ->
  let L := Py.len text in
  let chunks := chunk_text text chunk_size overlap in
  let spans := chunk_spans L chunk_size overlap in
  chunks = map (slice_span text) spans
  /\ (forall p : Z,
        0 <= p < L <-> exists a b : Z, In (a, b) spans /\ a <= p < b)
  /\ (forall (i : nat) (a b a' b' : Z),
        nth_error spans i = Some (a, b) ->
        nth_error spans (S i) = Some (a', b') ->
        a < a' <= b)
  /\ (forall a b : Z,
        In (a, b) spans ->
        Py.len (Py.slice text a b) = b - a /\ b - a <= chunk_size)
  /\ (forall c : string, In c chunks -> Py.len c <= chunk_size)
  /\ (L = 0 -> chunks = []).
Proof.
  intros Hcs Hov L chunks spans.
  pose proof (step_of_pos chunk_size overlap) as Hstep.
  assert (Hle : step_of chunk_size overlap <= chunk_size)
    by (unfold step_of; lia).
  assert (Hclosed : chunks = map (slice_span text) spans)
    by apply chunk_text_closed.
  assert (Hlen : forall a b : Z,
             In (a, b) spans ->
             Py.len (Py.slice text a b) = b - a /\ b - a <= chunk_size).
  { intros a b Hin. apply chunk_spans_window in Hin.
    destruct Hin as [Ha [Hb _]]. fold L in Hb.
    rewrite len_slice by (fold L; lia). lia. }
  split; [exact Hclosed|]. split; [|split; [|split; [exact Hlen|split]]].
  - intros p. split.
    + intros Hp. set (s := step_of chunk_size overlap) in *.
      assert (Hq : 0 <= p / s) by (apply Z.div_pos; lia).
      assert (Hlo : s * (p / s) <= p) by (apply Z.mul_div_le; lia).
      assert (Hhi : p < s * Z.succ (p / s)) by (apply Z.mul_succ_div_gt; lia).
      exists (p / s * s), (Z.min L (p / s * s + chunk_size)).
      split; [|lia].
      apply chunk_spans_In. exists (Z.to_nat (p / s)). fold s.
      unfold window. rewrite Z2Nat.id by exact Hq. split; [lia | reflexivity].
    + intros [a [b [Hin Hp]]]. apply chunk_spans_window in Hin.
      fold L in Hin. lia.
  - intros i a b a' b' H1 H2.
    pose proof (nth_error_lt _ _ _ H2) as Hi.
    unfold spans in Hi. rewrite chunk_spans_length in Hi.
    unfold spans in H1, H2.
    rewrite chunk_spans_nth in H1 by lia.
    rewrite chunk_spans_nth in H2 by exact Hi.
    apply count_from_bound in Hi; [|exact Hstep].
    unfold window in H1, H2.
    apply some_pair_inv in H1. apply some_pair_inv in H2.
    destruct H1 as [-> ->]. destruct H2 as [-> ->].
    fold L in Hi. rewrite Nat2Z.inj_succ, Z.mul_succ_l in *. lia.
  - intros c Hc. rewrite Hclosed in Hc. apply in_map_iff in Hc.
    destruct Hc as [[a b] [<- Hin]]. apply Hlen in Hin.
    unfold slice_span. simpl fst. simpl snd. lia.
  - intros HL. rewrite Hclosed. unfold spans.
    rewrite chunk_spans_closed, HL. reflexivity.
Qed.

Lemma chunk_text_coverage_witness :
  let text := "abcdefghij" in
  chunk_text text 4 1 = ["abcd"; "defg"; "ghij"; "j"]
  /\ (forall p : Z,
        0 <= p < 10 <->
        exists a b : Z, In (a, b) (chunk_spans 10 4 1) /\ a <= p < b).
Proof.
  assert (H1 : 0 < 4) by lia.
  assert (H2 : 0 <= 1 < 4) by lia.
  pose proof (chunk_text_coverage "abcdefghij" 4 1 H1 H2) as H.
  split; [reflexivity|].
  exact (proj1 (proj2 H)).
Defined.

(** C7: the chunk of index [i] starts at [i * step], with
    [step = max(1, chunk_size - overlap)], and is the substring from
    there to [min(len(text), i * step + chunk_size)]; the starts of two
    chunks that follow each other differ by exactly [step]. *)
Theorem chunk_start_offsets (text : string) (chunk_size overlap : Z) :
  let n := Py.len text in
  let step := Z.max 1 (chunk_size - overlap) in
  let chunks := chunk_text text chunk_size overlap in
  let spans := chunk_spans n chunk_size overlap in
  chunks = map (slice_span text) spans
  /\ (forall i : nat,
        (i < List.length chunks)%nat ->
        nth_error spans i
        = Some (Z.of_nat i * step, Z.min n (Z.of_nat i * step + chunk_size))
        /\ nth_error chunks i
           = Some (Py.slice text (Z.of_nat i * step)
                     (Z.min n (Z.of_nat i * step + chunk_size))))
  /\ (forall (i : nat) (a b a' b' : Z),
        nth_error spans i = Some (a, b) ->
        nth_error spans (S i) = Some (a', b') ->
        a' - a = step).
Proof.
  intros n step chunks spans.
  assert (Hclosed : chunks = map (slice_span text) spans)
    by apply chunk_text_closed.
  assert (Hnth : forall i : nat,
             (i < List.length spans)%nat ->
             nth_error spans i
             = Some (Z.of_nat i * step,
                     Z.min n (Z.of_nat i * step + chunk_size))).
  { intros i Hi. unfold spans in *. rewrite chunk_spans_length in Hi.
    now rewrite chunk_spans_nth by exact Hi. }
  split; [exact Hclosed|]. split.
  - intros i Hi. rewrite Hclosed, length_map in Hi.
    split; [now apply Hnth|].
    rewrite Hclosed, nth_error_map, (Hnth i Hi). reflexivity.
  - intros i a b a' b' H1 H2.
    apply (chunk_spans_adjacent _ _ _ _ _ _ _ _ H1 H2).
Qed.

(** C8: [chunk_text] returns on every input, also with an overlap at or
    above the chunk size: the step is at least 1, so [len(text) + 1]
    iterations are enough for the loop to exit, more fuel gives the same
    list, the list has at most [len(text)] chunks, and the start offset
    grows from each window to the next. *)
Theorem chunk_text_terminates (text : string) (chunk_size overlap : Z) :
  let n := Py.len text in
  1 <= Z.max 1 (chunk_size - overlap)
  /\ exists chunks : list string,
       chunk_text_fuel (chunk_fuel n) text chunk_size overlap = Some chunks
       /\ chunk_text text chunk_size overlap = chunks
       /\ (forall fuel : nat,
             (chunk_fuel n <= fuel)%nat ->
             chunk_text_fuel fuel text chunk_size overlap = Some chunks)
       /\ (List.length chunks <= Z.to_nat n)%nat
       /\ (forall (i : nat) (a b a' b' : Z),
             nth_error (chunk_spans n chunk_size overlap) i = Some (a, b) ->
             nth_error (chunk_spans n chunk_size overlap) (S i)
             = Some (a', b') ->
             a < a').
Proof.
  intros n. pose proof (step_of_pos chunk_size overlap) as Hstep.
  split; [exact Hstep|].
  set (step := step_of chunk_size overlap) in *.
  set (spans := windows_from n chunk_size step (nchunks n step) 0).
  assert (Hrun : forall fuel : nat,
             (chunk_fuel n <= fuel)%nat ->
             chunk_text_fuel fuel text chunk_size overlap
             = Some (map (slice_span text) spans)).
  { intros fuel Hfuel. unfold chunk_text_fuel, chunk_fuel in *.
    fold n. fold (step_of chunk_size overlap). fold step.
    change (@nil string) with (map (slice_span text) []).
    rewrite chunk_loop_spans, span_loop_enough by (try exact Hstep; lia).
    reflexivity. }
  exists (map (slice_span text) spans).
  split; [apply Hrun; lia|]. split; [|split; [exact Hrun|split]].
  - unfold chunk_text. fold n. now rewrite Hrun by lia.
  - rewrite length_map. unfold spans. rewrite windows_from_length.
    unfold nchunks, count_from. destruct (Z.ltb_spec 0 n) as [Hn|Hn]; [|lia].
    assert ((n - 0 - 1) / step <= n - 0 - 1)
      by (apply Z.div_le_upper_bound; nia).
    lia.
  - intros i a b a' b' H1 H2.
    pose proof (chunk_spans_adjacent _ _ _ _ _ _ _ _ H1 H2). lia.
Qed.

(** A window of the loop holds at least one character when the chunk
    size is above 0. *)
Lemma chunk_spans_nonempty (text : string) (chunk_size overlap a b : Z) :
  0 < chunk_size ->
  In (a, b) (chunk_spans (Py.len text) chunk_size overlap) ->
  a < Py.len text /\ a < b /\ 1 <= Py.len (Py.slice text a b).
Proof.
  intros Hcs Hin. apply chunk_spans_window in Hin.
  destruct Hin as [Ha [Hb _]]. rewrite len_slice by lia. lia.
Qed.

Lemma chunk_text_nonempty (text : string) (chunk_size overlap : Z)
    (c : string) :
  0 < chunk_size ->
  In c (chunk_text text chunk_size overlap) ->
  1 <= Py.len c.
Proof.
  intros Hcs Hin. rewrite chunk_text_closed in Hin.
  apply in_map_iff in Hin. destruct Hin as [[a b] [<- Hin]].
  now apply (chunk_spans_nonempty text chunk_size overlap a b Hcs).
Qed.

Section Texts.

Context {F : Type}.

Lemma records_of_pages_nonempty (name : string) (pages : list (Z * string))
    (r : record F) :
  In r (records_of_pages name pages) -> 1 <= Py.len (rec_text r).
Proof.
  intros Hin. destruct pages as [|p pages]; [contradiction|].
  apply (in_map rec_text) in Hin.
  rewrite records_of_pages_text in Hin by congruence.
  apply chunk_text_nonempty in Hin; [exact Hin | reflexivity].
Qed.

(** Storing the vectors leaves the other fields as they are. *)
Lemma attach_embeddings_text (embeddings : list (list F))
    (records : list (Z * record F)) :
  forall recs' : list (record F),
    attach_embeddings records embeddings = Ok recs' ->
    map rec_text recs' = map (fun p => rec_text (snd p)) records.
Proof.
  induction records as [|[i rec] records IH]; intros recs' H.
  - injection H as <-. reflexivity.
  - cbn [attach_embeddings] in H.
    destruct (Py.getitem embeddings i) as [v|e]; [|discriminate].
    cbn [bind] in H.
    destruct (attach_embeddings records embeddings) as [recs|e];
      [|discriminate].
    cbn [bind] in H. injection H as <-.
    cbn [map snd rec_text]. now rewrite (IH recs eq_refl).
Qed.

Lemma embed_and_write_text (encode : list string -> list (list F))
    (records : list (record F)) (idx : index F) :
  embed_and_write encode records = Ok (Some idx) ->
  map rec_text (idx_records idx) = map rec_text records.
Proof.
  unfold embed_and_write. intros H.
  destruct (map rec_text records) as [|t ts] eqn:Et; [discriminate|].
  rewrite <- Et in *. clear Et.
  destruct (attach_embeddings (Py.enumerate records)
              (encode (map rec_text records))) as [recs'|e] eqn:Ea;
    [|discriminate].
  cbn [bind] in H.
  apply attach_embeddings_text in Ea.
  assert (Hrecs : idx_records idx = recs').
  { destruct (0 <? Py.llen (encode (map rec_text records))).
    - destruct (Py.getitem (encode (map rec_text records)) 0);
        [|discriminate].
      cbn [bind] in H. injection H as <-. reflexivity.
    - cbn [bind] in H. injection H as <-. reflexivity. }
  rewrite Hrecs, Ea. unfold Py.enumerate.
  rewrite <- (enumerate_from_snd records 0) at 2.
  now rewrite map_map.
Qed.

End Texts.

(** C10: with a chunk size above 0 every window of [chunk_text] starts
    before the end of the text and ends after its own start, so every
    chunk returned is a string that is not empty; and every record of an
    index the main program writes has a text that is not empty. *)
Theorem chunks_nonempty (F : Type) (text : string) (chunk_size overlap : Z) :
  0 < chunk_size ->
  (forall a b : Z,
     In (a, b) (chunk_spans (Py.len text) chunk_size overlap) ->
     a < Py.len text /\ a < b /\ 1 <= Py.len (Py.slice text a b))
  /\ (forall c : string,
        In c (chunk_text text chunk_size overlap) ->
        c <> "" /\ 1 <= Py.len c)
  /\ (forall (pdfs : list pdf_file) (encode : list string -> list (list F))
             (idx : index F) (r : record F),
        main pdfs encode = Ok (Some idx) ->
        In r (idx_records idx) ->
        rec_text r <> "" /\ 1 <= Py.len (rec_text r)).
Proof.
  intros Hcs.
  assert (Hne : forall s : string, 1 <= Py.len s -> s <> "").
  { intros s Hs ->. cbn in Hs. lia. }
  split; [|split].
  - intros a b. now apply chunk_spans_nonempty.
  - intros c Hc. apply chunk_text_nonempty in Hc; [|exact Hcs].
    split; [now apply Hne | exact Hc].
  - intros pdfs encode idx r Hmain Hin. unfold main in Hmain.
    rewrite process_all_closed in Hmain. cbn [bind app] in Hmain.
    apply embed_and_write_text in Hmain.
    apply (in_map rec_text) in Hin. rewrite Hmain in Hin.
    apply in_map_iff in Hin. destruct Hin as [r0 [Heq Hin]].
    apply in_flat_map in Hin. destruct Hin as [pdf [_ Hin]].
    apply records_of_pages_nonempty in Hin. rewrite Heq in Hin.
    split; [now apply Hne | exact Hin].
Qed.

Lemma chunks_nonempty_witness :
  (forall c : string, In c (chunk_text "abcdefghij" 4 6) -> c <> "")
  /\ chunk_text "abcdefghij" 4 6
     = ["abcd"; "bcde"; "cdef"; "defg"; "efgh"; "fghi"; "ghij"; "hij";
        "ij"; "j"].
Proof.
  assert (H : 0 < 4) by lia.
  split; [|reflexivity].
  intros c Hc.
  exact (proj1 (proj1 (proj2 (chunks_nonempty Z "abcdefghij" 4 6 H)) c Hc)).
Defined.

(** ** The page locator *)

Lemma find_page_scan_some (page_map : list (Z * Z)) (pos pno : Z) :
  find_page_scan page_map pos = Some pno ->
  exists (before : list (Z * Z)) (upto : Z) (after : list (Z * Z)),
    page_map = before ++ (pno, upto) :: after
    /\ pos <= upto
    /\ forall e, In e before -> snd e < pos.
Proof.
  induction page_map as [|[p upto] rest IH]; intros Hs; [discriminate|].
  cbn [find_page_scan] in Hs. destruct (Z.leb_spec pos upto) as [Hle|Hgt].
  - injection Hs as ->. exists [], upto, rest.
    repeat split; [exact Hle | intros e []].
  - destruct (IH Hs) as [before [u [after [-> [Hu Hb]]]]].
    exists ((p, upto) :: before), u, after. repeat split; [exact Hu|].
    intros e [<-|He]; [exact Hgt | now apply Hb].
Qed.

Lemma find_page_scan_none (page_map : list (Z * Z)) (pos : Z) :
  find_page_scan page_map pos = None ->
  forall e, In e page_map -> snd e < pos.
Proof.
  induction page_map as [|[p upto] rest IH]; intros Hs e He; [contradiction|].
  cbn [find_page_scan] in Hs. destruct (Z.leb_spec pos upto) as [Hle|Hgt];
    [discriminate|].
  destruct He as [<-|He]; [exact Hgt | now apply IH].
Qed.

(** C9: on a page map that is not empty [find_page] returns the page of
    the first entry, in the order of the map, whose cumulative count is
    at or above the position, every entry before it being below the
    position; when every count is below the position it returns the page
    of the last entry.  For the pages of lengths 100, 200 and 50 the
    counts are 100, 300 and 350, and the positions 250, 350 and 0 are on
    the pages 2, 3 and 1. *)
Theorem find_page_first_match (page_map : list (Z * Z)) (char_position : Z) :
  page_map <> [] ->
  (exists pno : Z,
     find_page page_map char_position = Ok pno
     /\ ((exists (before : list (Z * Z)) (upto : Z) (after : list (Z * Z)),
            page_map = before ++ (pno, upto) :: after
            /\ char_position <= upto
            /\ forall e, In e before -> snd e < char_position)
         \/ ((forall e, In e page_map -> snd e < char_position)
             /\ pno = fst (last page_map (0, 0)))))
  /\ snd (build_page_map [(1, repeat_char 100 "a"); (2, repeat_char 200 "b");
                          (3, repeat_char 50 "c")])
     = [(1, 100); (2, 300); (3, 350)]
  /\ find_page [(1, 100); (2, 300); (3, 350)] 250 = Ok 2
  /\ find_page [(1, 100); (2, 300); (3, 350)] 350 = Ok 3
  /\ find_page [(1, 100); (2, 300); (3, 350)] 0 = Ok 1.
Proof.
  intros Hne. split; [|repeat split; vm_compute; reflexivity].
  unfold find_page.
  destruct (find_page_scan page_map char_position) as [pno|] eqn:Hs.
  - exists pno. split; [reflexivity|]. left. now apply find_page_scan_some.
  - rewrite (getitem_last page_map (0, 0) Hne).
    destruct (last page_map (0, 0)) as [pno upto] eqn:El.
    exists pno. split; [reflexivity|]. right.
    split; [now apply find_page_scan_none | reflexivity].
Qed.

Lemma find_page_first_match_witness :
  exists pno : Z,
    find_page [(1, 100); (2, 300); (3, 350)] 351 = Ok pno
    /\ ((exists (before : list (Z * Z)) (upto : Z) (after : list (Z * Z)),
           [(1, 100); (2, 300); (3, 350)] = before ++ (pno, upto) :: after
           /\ 351 <= upto
           /\ forall e, In e before -> snd e < 351)
        \/ ((forall e, In e [(1, 100); (2, 300); (3, 350)] -> snd e < 351)
            /\ pno = fst (last [(1, 100); (2, 300); (3, 350)] (0, 0)))).
Proof.
  assert (H : [(1, 100); (2, 300); (3, 350)] <> []) by discriminate.
  exact (proj1 (find_page_first_match [(1, 100); (2, 300); (3, 350)] 351 H)).
Defined.

(** ** The page offset map of a document *)

(** C2, as stated, fails on a document of two pages: the last count of
    the page map is 2, the text handed to the chunker has 4 characters,
    the two texts and the two line feeds between them. *)
Lemma page_map_final_count_counterexample :
  let pages := [(1, "a"); (2, "b")] in
  let full_text := fst (build_page_map pages) in
  let page_map := snd (build_page_map pages) in
  page_map = [(1, 1); (2, 2)]
  /\ Py.len (combined_of full_text) = 4
  /\ snd (last page_map (0, 0)) <> Py.len (combined_of full_text).
Proof. vm_compute. repeat split; discriminate. Qed.

(** C2, amended: the page map keeps the page numbers in page order, its
    cumulative counts never decrease, and the count of its last entry is
    the sum of the lengths of the page texts, the length of their
    concatenation without a separator; the text handed to the chunker is
    longer by the two line feeds between each two pages. *)
Theorem page_map_counts (pages : list (Z * string)) :
  pages <> [] ->
  let full_text := fst (build_page_map pages) in
  let page_map := snd (build_page_map pages) in
  full_text = map snd pages
  /\ map fst page_map = map fst pages
  /\ (forall (i : nat) (e1 e2 : Z * Z),
        nth_error page_map i = Some e1 ->
        nth_error page_map (S i) = Some e2 ->
        snd e1 <= snd e2)
  /\ snd (last page_map (0, 0)) = total_len full_text
  /\ snd (last page_map (0, 0)) = Py.len (Py.join "" full_text)
  /\ Py.len (combined_of full_text)
     = snd (last page_map (0, 0)) + 2 * (Py.llen pages - 1).
Proof.
  intros Hne full_text page_map. unfold full_text, page_map.
  rewrite build_page_map_closed. cbn [fst snd].
  assert (Hlast : snd (last (page_offsets 0 pages) (0, 0))
                  = total_len (map snd pages))
    by (rewrite page_offsets_last by exact Hne; lia).
  split; [reflexivity|]. split; [apply page_offsets_fst|].
  split; [apply page_offsets_adjacent|]. split; [exact Hlast|].
  split; [now rewrite len_join_empty|].
  rewrite len_combined by (destruct pages; [congruence | discriminate]).
  rewrite Hlast. unfold Py.llen. now rewrite length_map.
Qed.

Lemma page_map_counts_witness :
  let pages :=
    [(1, repeat_char 100 "a"); (2, ""); (3, repeat_char 50 "c")] in
  snd (build_page_map pages) = [(1, 100); (2, 100); (3, 150)]
  /\ Py.len (combined_of (fst (build_page_map pages)))
     = snd (last (snd (build_page_map pages)) (0, 0)) + 2 * (3 - 1).
Proof.
  assert (H : [(1, repeat_char 100 "a"); (2, ""); (3, repeat_char 50 "c")]
              <> []) by discriminate.
  split; [vm_compute; reflexivity|].
  exact (proj2 (proj2 (proj2 (proj2 (proj2
           (page_map_counts
              [(1, repeat_char 100 "a"); (2, ""); (3, repeat_char 50 "c")]
              H)))))).
Defined.

(** ** The page pair of a record *)

(** C1, as stated, fails on the document "Alpha Beta.pdf" with pages of
    1000 and 500 characters: for the chunk of index 0 the start position
    0 is on page 1 and the end position 1200 is on page 2, so the record
    has the pages 1 and 2. *)
Lemma pages_pair_counterexample :
  exists r0 r1 : record Z,
    process_pdf
      (plain_pdf "Alpha Beta.pdf" [repeat_char 1000 "a"; repeat_char 500 "b"])
    = Ok [r0; r1]
    /\ rec_pages r0 = (1, 2)
    /\ fst (rec_pages r0) <> snd (rec_pages r0).
Proof.
  eexists. eexists. split; [vm_compute; reflexivity|].
  split; [reflexivity | discriminate].
Qed.

Lemma record_of_pages {F : Type} (book_name name : string)
    (page_map : list (Z * Z)) (cum_lens : list Z) (i : Z) (ch : string) :
  rec_pages (@record_of F book_name name page_map cum_lens (i, ch))
  = (page_at 0 page_map (nth (Z.to_nat i) cum_lens 0),
     page_at 0 page_map (nth (Z.to_nat (i + 1)) cum_lens 0)).
Proof. reflexivity. Qed.

(** The record of index [i] of a file: its pages are looked up at the
    entries [i] and [i + 1] of [cum_lens]. *)
Lemma records_of_pages_nth {F : Type} (name : string)
    (pages : list (Z * string)) (i : nat) (r : record F) :
  let chunks :=
    chunk_text (combined_of (map snd pages)) CHUNK_SIZE CHUNK_OVERLAP in
  nth_error (records_of_pages name pages) i = Some r ->
  (i < List.length chunks)%nat
  /\ pages <> []
  /\ rec_pages r
     = (page_at 0 (page_offsets 0 pages) (nth i (cum_lens_of chunks) 0),
        page_at 0 (page_offsets 0 pages) (nth (S i) (cum_lens_of chunks) 0)).
Proof.
  intros chunks Hr.
  assert (Hne : pages <> []).
  { intros ->. destruct i; discriminate Hr. }
  assert (Hrecs : @records_of_pages F name pages
                  = map (record_of (Py.replace_char "_" " " (Py.stem name))
                           name (page_offsets 0 pages) (cum_lens_of chunks))
                        (Py.enumerate chunks)).
  { unfold records_of_pages. destruct pages; [congruence | reflexivity]. }
  rewrite Hrecs, nth_error_map in Hr. clear Hrecs.
  destruct (nth_error (Py.enumerate chunks) i) as [[j ch]|] eqn:Ei;
    [|discriminate Hr].
  pose proof (nth_error_lt _ _ _ Ei) as Hi.
  unfold Py.enumerate in Hi, Ei. rewrite enumerate_from_length in Hi.
  destruct (nth_error chunks i) as [c|] eqn:Ec;
    [|apply nth_error_None in Ec; lia].
  rewrite (enumerate_from_nth _ 0 i c Ec) in Ei.
  apply some_pair_inv in Ei. destruct Ei as [-> ->].
  cbn [option_map] in Hr. apply some_inv in Hr.
  split; [exact Hi|]. split; [exact Hne|].
  rewrite Hr, record_of_pages.
  replace (Z.to_nat (0 + Z.of_nat i)) with i by lia.
  replace (Z.to_nat (0 + Z.of_nat i + 1)) with (S i) by lia.
  reflexivity.
Qed.

(** Each running sum is the one before it plus the next number. *)
Lemma cumsum_from_succ (l : list Z) :
  forall (acc : Z) (i : nat),
    (i < List.length l)%nat ->
    nth (S i) (acc :: Py.cumsum_from acc l) 0
    = nth i (acc :: Py.cumsum_from acc l) 0 + nth i l 0.
Proof.
  induction l as [|x l IH]; intros acc i Hi; [simpl in Hi; lia|].
  destruct i as [|i].
  - reflexivity.
  - simpl in Hi.
    change (nth (S (S i)) (acc :: Py.cumsum_from acc (x :: l)) 0)
      with (nth (S i) (acc + x :: Py.cumsum_from (acc + x) l) 0).
    change (nth (S i) (acc :: Py.cumsum_from acc (x :: l)) 0)
      with (nth i (acc + x :: Py.cumsum_from (acc + x) l) 0).
    change (nth (S i) (x :: l) 0) with (nth i l 0).
    apply IH. lia.
Qed.

(** The offset the main program takes for the end of a chunk is after
    the one it takes for its start, when no chunk is empty. *)
Lemma cum_lens_of_strict (chunks : list string) (i : nat) :
  (forall c : string, In c chunks -> 1 <= Py.len c) ->
  (i < List.length chunks)%nat ->
  nth i (cum_lens_of chunks) 0 < nth (S i) (cum_lens_of chunks) 0.
Proof.
  intros Hne Hi.
  change (cum_lens_of chunks) with (0 :: Py.cumsum_from 0 (map Py.len chunks)).
  rewrite cumsum_from_succ by (rewrite length_map; exact Hi).
  destruct (nth_error chunks i) as [c|] eqn:Ec;
    [|apply nth_error_None in Ec; lia].
  assert (Hn : nth i (map Py.len chunks) 0 = Py.len c).
  { apply nth_error_nth. now rewrite nth_error_map, Ec. }
  pose proof (Hne c (nth_error_In _ _ Ec)). lia.
Qed.

(** C1, amended: the main program returns the records of every file,
    and for the chunk of index [i] the pair [pages] holds the page found
    for the position [approx_pages] takes as the start of the chunk,
    [cum_lens[i]], and the page found for the position it takes as its
    end, [cum_lens[i + 1]]; the two positions differ, the second is
    after the first, and the end page is not before the start page. *)
Theorem pages_pair_ordered (F : Type) (pdf : pdf_file) :
  let pages := read_pdf_text pdf in
  let page_map := snd (build_page_map pages) in
  let chunks :=
    chunk_text (combined_of (fst (build_page_map pages)))
      CHUNK_SIZE CHUNK_OVERLAP in
  let cum_lens := cum_lens_of chunks in
  exists recs : list (record F),
    process_pdf pdf = Ok recs
    /\ (forall (i : nat) (r : record F),
          nth_error recs i = Some r ->
          find_page page_map (nth i cum_lens 0) = Ok (fst (rec_pages r))
          /\ find_page page_map (nth (S i) cum_lens 0)
             = Ok (snd (rec_pages r))
          /\ nth i cum_lens 0 < nth (S i) cum_lens 0)
    /\ (forall r : record F,
          In r recs -> fst (rec_pages r) <= snd (rec_pages r)).
Proof.
  intros pages page_map chunks cum_lens.
  unfold cum_lens, chunks, page_map. rewrite build_page_map_closed.
  cbn [fst snd].
  exists (records_of_pages (pdf_name pdf) pages).
  split; [apply process_pages_closed|].
  assert (Hsorted : pnos_sorted 0 (page_offsets 0 pages)).
  { apply (pnos_sorted_weaken _ 1); [lia | apply read_pdf_text_sorted]. }
  split.
  - intros i r Hr. apply records_of_pages_nth in Hr.
    destruct Hr as [Hi [Hne Hp]]. rewrite Hp. cbn [fst snd].
    assert (Hpm : page_offsets 0 pages <> [])
      by now apply page_offsets_nonnil.
    rewrite !(find_page_page_at _ _ 0 Hpm).
    repeat split. apply cum_lens_of_strict; [|exact Hi].
    intros c Hc. apply chunk_text_nonempty in Hc; [exact Hc | reflexivity].
  - intros r Hin. apply In_nth_error in Hin. destruct Hin as [i Hr].
    apply records_of_pages_nth in Hr.
    destruct Hr as [Hi [Hne Hp]]. rewrite Hp. cbn [fst snd].
    apply page_at_mono; [|exact Hsorted].
    apply cum_lens_of_mono. lia.
Qed.

(** C3 on the document "Alpha Beta.pdf", with pages of 1000 and 500
    characters: the chunk of index 1 starts at the offset 1000 of the
    text, one step after the chunk of index 0, while the position
    [approx_pages] looks up for it is 1200, the length of the chunk of
    index 0; the offset 1000 is on page 1 and the record says page 2. *)
Theorem approx_pages_start_char_alpha_beta :
  let pdf :=
    plain_pdf "Alpha Beta.pdf" [repeat_char 1000 "a"; repeat_char 500 "b"] in
  let pages := read_pdf_text pdf in
  let page_map := snd (build_page_map pages) in
  let combined := combined_of (fst (build_page_map pages)) in
  let chunks := chunk_text combined CHUNK_SIZE CHUNK_OVERLAP in
  let cum_lens := cum_lens_of chunks in
  chunk_spans (Py.len combined) CHUNK_SIZE CHUNK_OVERLAP
  = [(0, 1200); (1000, 1502)]
  /\ 1 * Z.max 1 (CHUNK_SIZE - CHUNK_OVERLAP) = 1000
  /\ cum_lens = [0; 1200; 1702]
  /\ Py.getitem cum_lens 1 = Ok 1200
  /\ page_map = [(1, 1000); (2, 1500)]
  /\ find_page page_map 1000 = Ok 1
  /\ find_page page_map 1200 = Ok 2
  /\ approx_pages page_map cum_lens 1 1 = Ok (2, 2)
  /\ match @process_pdf Z pdf with
     | Ok recs => map rec_pages recs
     | Raise _ => []
     end = [(1, 2); (2, 2)].
Proof. vm_compute. repeat split; reflexivity. Qed.

(** ** The scenario of the document "Alpha Beta.pdf" *)

Lemma record_of_id {F : Type} (book_name name : string)
    (page_map : list (Z * Z)) (cum_lens : list Z) (i : Z) (ch : string) :
  rec_id (@record_of F book_name name page_map cum_lens (i, ch))
  = (book_name ++ "__chunk_" ++ Py.str_of_int i)%string.
Proof. reflexivity. Qed.

Lemma record_of_text {F : Type} (book_name name : string)
    (page_map : list (Z * Z)) (cum_lens : list Z) (i : Z) (ch : string) :
  rec_text (@record_of F book_name name page_map cum_lens (i, ch)) = ch.
Proof. reflexivity. Qed.

Lemma record_of_book {F : Type} (book_name name : string)
    (page_map : list (Z * Z)) (cum_lens : list Z) (ich : Z * string) :
  rec_book (@record_of F book_name name page_map cum_lens ich) = book_name.
Proof. destruct ich. reflexivity. Qed.

(** C4, as stated, fails: the text of the two pages of 1000 and 500
    characters has 1502 characters, with the two line feeds between the
    pages, and the chunk of index 1 ends at 1502. *)
Lemma alpha_beta_counterexample :
  let pages := [(1, repeat_char 1000 "a"); (2, repeat_char 500 "b")] in
  let combined := combined_of (fst (build_page_map pages)) in
  Py.len combined = 1502
  /\ chunk_spans (Py.len combined) CHUNK_SIZE CHUNK_OVERLAP
     = [(0, 1200); (1000, 1502)]
  /\ Py.len combined <> 1500
  /\ chunk_spans (Py.len combined) CHUNK_SIZE CHUNK_OVERLAP
     <> [(0, 1200); (1000, 1500)].
Proof. vm_compute. repeat split; discriminate. Qed.

(** C4, amended: for the document "Alpha Beta.pdf" of two pages with
    texts of 1000 and 500 characters, the text handed to the chunker
    has 1502 characters, the step is 1000, and there are exactly 2
    chunks, on [0, 1200) and on [1000, 1502); the two records have the
    ids "Alpha Beta__chunk_0" and "Alpha Beta__chunk_1". *)
Theorem alpha_beta_scenario (F : Type) (t1 t2 : string) :
  Py.len t1 = 1000 ->
  Py.len t2 = 500 ->
  let pdf := plain_pdf "Alpha Beta.pdf" [t1; t2] in
  let combined := combined_of (fst (build_page_map (read_pdf_text pdf))) in
  Py.len combined = 1502
  /\ Z.max 1 (CHUNK_SIZE - CHUNK_OVERLAP) = 1000
  /\ chunk_spans (Py.len combined) CHUNK_SIZE CHUNK_OVERLAP
     = [(0, 1200); (1000, 1502)]
  /\ chunk_text combined CHUNK_SIZE CHUNK_OVERLAP
     = [Py.slice combined 0 1200; Py.slice combined 1000 1502]
  /\ exists r0 r1 : record F,
       process_pdf pdf = Ok [r0; r1]
       /\ rec_id r0 = "Alpha Beta__chunk_0"
       /\ rec_id r1 = "Alpha Beta__chunk_1"
       /\ rec_book r0 = "Alpha Beta"
       /\ rec_book r1 = "Alpha Beta"
       /\ rec_text r0 = Py.slice combined 0 1200
       /\ rec_text r1 = Py.slice combined 1000 1502.
Proof.
  intros H1 H2 pdf combined.
  change (read_pdf_text pdf) with [(1, t1); (2, t2)] in combined.
  unfold combined. rewrite build_page_map_closed. cbn [fst map snd].
  assert (Hlen : Py.len (combined_of [t1; t2]) = 1502).
  { rewrite len_combined by discriminate. cbn. lia. }
  assert (Hspans : chunk_spans (Py.len (combined_of [t1; t2]))
                     CHUNK_SIZE CHUNK_OVERLAP
                   = [(0, 1200); (1000, 1502)]).
  { rewrite Hlen. vm_compute. reflexivity. }
  assert (Hchunks : chunk_text (combined_of [t1; t2]) CHUNK_SIZE CHUNK_OVERLAP
                    = [Py.slice (combined_of [t1; t2]) 0 1200;
                       Py.slice (combined_of [t1; t2]) 1000 1502]).
  { rewrite chunk_text_closed, Hspans. reflexivity. }
  split; [exact Hlen|]. split; [reflexivity|]. split; [exact Hspans|].
  split; [exact Hchunks|].
  unfold process_pdf. rewrite process_pages_closed.
  change (read_pdf_text pdf) with [(1, t1); (2, t2)].
  unfold records_of_pages. cbn [map snd]. rewrite Hchunks.
  change (pdf_name pdf) with "Alpha Beta.pdf".
  change (Py.replace_char "_" " " (Py.stem "Alpha Beta.pdf"))
    with "Alpha Beta".
  unfold Py.enumerate. cbn [Py.enumerate_from map].
  eexists. eexists. split; [reflexivity|].
  rewrite !record_of_id, !record_of_book, !record_of_text.
  repeat split; reflexivity.
Qed.

Lemma alpha_beta_scenario_witness :
  exists r0 r1 : record Z,
    process_pdf
      (plain_pdf "Alpha Beta.pdf" [repeat_char 1000 "a"; repeat_char 500 "b"])
    = Ok [r0; r1]
    /\ rec_id r0 = "Alpha Beta__chunk_0"
    /\ rec_id r1 = "Alpha Beta__chunk_1".
Proof.
  assert (H1 : Py.len (repeat_char 1000 "a") = 1000) by (vm_compute; reflexivity).
  assert (H2 : Py.len (repeat_char 500 "b") = 500) by (vm_compute; reflexivity).
  destruct (alpha_beta_scenario Z (repeat_char 1000 "a")
              (repeat_char 500 "b") H1 H2)
    as [_ [_ [_ [_ [r0 [r1 [Hp [Hid0 [Hid1 _]]]]]]]]].
  exists r0, r1. split; [exact Hp|]. split; [exact Hid0 | exact Hid1].
Defined.

(** ** The embedding step *)

(** C5, as stated, fails when there are more vectors than records: with
    one record and two vectors the run ends without an error and the
    index is written. *)
Lemma surplus_vectors_counterexample :
  let pdf := plain_pdf "a.pdf" ["hello"] in
  let encode := fun _ : list string => [[1; 2]; [3; 4]] in
  exists (r : record Z) (idx : index Z),
    process_all [pdf] [] = Ok [r]
    /\ List.length (encode [rec_text r]) = 2%nat
    /\ main [pdf] encode = Ok (Some idx)
    /\ map rec_embedding (idx_records idx) = [Some [1; 2]].
Proof.
  eexists. eexists. split; [vm_compute; reflexivity|].
  split; [reflexivity|]. split; vm_compute; reflexivity.
Qed.

Example too_few_vectors_aborts :
  main [plain_pdf "a.pdf" ["hello"]] (fun _ : list string => @nil (list Z))
  = Raise IndexError.
Proof. vm_compute. reflexivity. Qed.

(** C5, amended: the run gets its records from the files without an
    error.  Without a record nothing is embedded or written.  With
    fewer vectors than records the run aborts with [IndexError] and
    nothing is written.  With as many vectors as records, or more, the
    run does not abort: the record of index [i] gets the vector of
    index [i], the vectors beyond the records are ignored, and the index
    is written with one record per chunk. *)
Theorem embedding_count_mismatch (F : Type) (pdfs : list pdf_file)
    (encode : list string -> list (list F)) :
  exists records : list (record F),
    process_all pdfs [] = Ok records
    /\ let embeddings := encode (map rec_text records) in
       (records = [] -> main pdfs encode = Ok None)
       /\ (records <> [] ->
           Py.llen embeddings < Py.llen records ->
           main pdfs encode = Raise IndexError)
       /\ (records <> [] ->
           Py.llen records <= Py.llen embeddings ->
           exists idx : index F,
             main pdfs encode = Ok (Some idx)
             /\ idx_records idx
                = map (fun '(i, rec) =>
                         with_embedding rec (nth (Z.to_nat i) embeddings []))
                    (Py.enumerate records)
             /\ md_total_chunks (idx_metadata idx) = Py.llen records
             /\ md_embedding_dim (idx_metadata idx)
                = Py.llen (nth 0 embeddings [])).
Proof.
  set (records :=
         flat_map (fun pdf => @records_of_pages F (pdf_name pdf)
                                (read_pdf_text pdf)) pdfs).
  assert (Hrecords : process_all pdfs [] = Ok records)
    by (rewrite process_all_closed; reflexivity).
  exists records. split; [exact Hrecords|].
  intros embeddings. unfold main. rewrite Hrecords. cbn [bind].
  unfold embeddings. clear embeddings.
  split; [|split].
  - intros ->. reflexivity.
  - intros Hne Hshort. unfold embed_and_write.
    destruct (map rec_text records) eqn:Et;
      [destruct records; [congruence | discriminate]|].
    rewrite <- Et in Hshort |- *. unfold Py.enumerate.
    rewrite attach_embeddings_short by (try exact Hne; lia).
    reflexivity.
  - intros Hne Hlong. unfold embed_and_write.
    destruct (map rec_text records) eqn:Et;
      [destruct records; [congruence | discriminate]|].
    rewrite <- Et in Hlong |- *. unfold Py.enumerate.
    rewrite attach_embeddings_closed by lia. cbn [bind].
    assert (Hpos : 1 <= Py.llen records).
    { unfold Py.llen. destruct records; [congruence | simpl; lia]. }
    destruct (Z.ltb_spec 0 (Py.llen (encode (map rec_text records))))
      as [_|?]; [|lia].
    rewrite (getitem_nth (encode (map rec_text records)) 0 []) by lia.
    cbn [bind].
    eexists. split; [reflexivity|]. cbn [idx_records idx_metadata
      md_total_chunks md_embedding_dim].
    split; [reflexivity|]. split; [|reflexivity].
    unfold Py.llen. now rewrite length_map, enumerate_from_length.
Qed.

(** * Further properties of the program *)

(** ** Substrings *)

Lemma append_empty_r (s : string) : (s ++ "")%string = s.
Proof. induction s as [|c s IH]; simpl; [reflexivity | now rewrite IH]. Qed.

Lemma substring_zero (s : string) (a : nat) : substring a 0 s = "".
Proof.
  revert a. induction s as [|c s IH]; intros [|a]; simpl;
    try reflexivity. apply IH.
Qed.

Lemma substring_full (s : string) : substring 0 (String.length s) s = s.
Proof. induction s as [|c s IH]; simpl; [reflexivity | now rewrite IH]. Qed.

Lemma substring_split (s : string) :
  forall a m k : nat,
    substring a (m + k) s
    = (substring a m s ++ substring (a + m) k s)%string.
Proof.
  induction s as [|c s IH]; intros a m k.
  - destruct a, m, k; reflexivity.
  - destruct a as [|a].
    + destruct m as [|m].
      * reflexivity.
      * cbn [Nat.add substring append]. now rewrite (IH 0%nat m k).
    + cbn [Nat.add substring]. apply IH.
Qed.

Lemma substring_substring (s : string) :
  forall a k x m : nat,
    substring x m (substring a k s)
    = substring (a + x) (Nat.min m (k - x)) s.
Proof.
  induction s as [|c s IH]; intros a k x m.
  - assert (E : forall p q, substring p q "" = "")
      by (intros [|p] [|q]; reflexivity).
    now rewrite !E.
  - destruct a as [|a].
    + destruct k as [|k].
      * rewrite Nat.sub_0_l, Nat.min_0_r, !substring_zero.
        destruct x, m; reflexivity.
      * cbn [substring Nat.add]. destruct x as [|x].
        -- destruct m as [|m]; [reflexivity|].
           cbn [substring Nat.min Nat.sub]. rewrite (IH 0%nat k 0%nat m).
           now rewrite Nat.sub_0_r.
        -- cbn [substring Nat.sub]. now rewrite (IH 0%nat k x m).
    + cbn [substring Nat.add]. apply IH.
Qed.

(** [text[0:len(text)]] is the text. *)
Lemma slice_full (text : string) : Py.slice text 0 (Py.len text) = text.
Proof.
  unfold Py.slice, Py.clamp, Py.len.
  destruct (Z.ltb_spec 0 0) as [?|_]; [lia|].
  destruct (Z.ltb_spec (Z.of_nat (String.length text)) 0) as [?|_]; [lia|].
  rewrite Z.min_l, Z.min_id by lia.
  rewrite Z.sub_0_r, Nat2Z.id. apply substring_full.
Qed.

(** [text[a:b]] as a substring, for offsets that are not negative. *)
Lemma slice_substring (text : string) (a b : Z) :
  0 <= a -> 0 <= b ->
  Py.slice text a b
  = substring (Z.to_nat (Z.min a (Py.len text)))
      (Z.to_nat (Z.min b (Py.len text)) - Z.to_nat (Z.min a (Py.len text)))
      text.
Proof.
  intros Ha Hb. unfold Py.slice, Py.clamp.
  destruct (Z.ltb_spec a 0) as [?|_]; [lia|].
  destruct (Z.ltb_spec b 0) as [?|_]; [lia|].
  f_equal. lia.
Qed.

(** An empty slice: the end is at or before the start. *)
Lemma slice_empty (text : string) (a b : Z) :
  0 <= a -> 0 <= b -> Z.min b (Py.len text) <= a -> Py.slice text a b = "".
Proof.
  intros Ha Hb Hle. rewrite slice_substring by lia.
  replace (Z.to_nat (Z.min b (Py.len text)) - Z.to_nat (Z.min a (Py.len text)))%nat
    with 0%nat by lia.
  apply substring_zero.
Qed.

(** Two slices that follow each other make one slice. *)
Lemma slice_app (text : string) (a c d : Z) :
  0 <= a <= c -> c <= d ->
  (Py.slice text a c ++ Py.slice text c d)%string = Py.slice text a d.
Proof.
  intros Hac Hcd. pose proof (len_nonneg text) as Hn.
  rewrite !slice_substring by lia.
  set (n := Py.len text) in *.
  set (a' := Z.to_nat (Z.min a n)). set (c' := Z.to_nat (Z.min c n)).
  set (d' := Z.to_nat (Z.min d n)).
  assert (H1 : (a' <= c')%nat) by lia. assert (H2 : (c' <= d')%nat) by lia.
  replace (d' - a')%nat with ((c' - a') + (d' - c'))%nat by lia.
  rewrite substring_split. repeat f_equal. lia.
Qed.

(** A slice of a slice of the text is a slice of the text. *)
Lemma slice_slice (text : string) (a b x y : Z) :
  0 <= a <= b -> b <= Py.len text -> 0 <= x <= y ->
  Py.slice (Py.slice text a b) x y
  = Py.slice text (a + x) (Z.min b (a + y)).
Proof.
  intros Hab Hb Hxy.
  assert (Hlen : Py.len (Py.slice text a b) = b - a)
    by (rewrite len_slice by lia; lia).
  destruct (Z.le_gt_cases x (b - a)) as [Hin|Hout].
  - rewrite (slice_substring (Py.slice text a b)) by lia. rewrite Hlen.
    rewrite (slice_substring text a b) by lia.
    rewrite (slice_substring text (a + x)) by lia.
    rewrite substring_substring.
    rewrite (Z.min_l a), (Z.min_l x), (Z.min_l (a + x)), (Z.min_l b (Py.len text)),
      (Z.min_l (Z.min b (a + y))) by lia.
    destruct (Z.le_gt_cases y (b - a)) as [Hy|Hy].
    + rewrite (Z.min_l y), (Z.min_r b) by lia. f_equal; lia.
    + rewrite (Z.min_r y), (Z.min_l b) by lia. f_equal; lia.
  - rewrite (slice_empty (Py.slice text a b) x y) by (rewrite ?Hlen; lia).
    rewrite (slice_empty text (a + x)) by lia. reflexivity.
Qed.

(** ** The chunks of a text *)

(** The chunk of index [i], when there is one. *)
Lemma chunk_text_nth (text : string) (chunk_size overlap : Z) (i : nat)
    (c : string) :
  nth_error (chunk_text text chunk_size overlap) i = Some c ->
  Z.of_nat i * step_of chunk_size overlap < Py.len text
  /\ c = Py.slice text (Z.of_nat i * step_of chunk_size overlap)
           (Z.min (Py.len text)
              (Z.of_nat i * step_of chunk_size overlap + chunk_size)).
Proof.
  intros Hc. rewrite chunk_text_closed, nth_error_map in Hc.
  destruct (nth_error (chunk_spans (Py.len text) chunk_size overlap) i)
    as [sp|] eqn:Esp; [|discriminate Hc].
  pose proof (nth_error_lt _ _ _ Esp) as Hi.
  rewrite chunk_spans_length in Hi.
  rewrite chunk_spans_nth in Esp by exact Hi.
  apply some_inv in Esp. subst sp.
  apply count_from_bound in Hi; [|apply step_of_pos].
  cbn [option_map] in Hc. apply some_inv in Hc. split; [exact Hi|].
  rewrite Hc. reflexivity.
Qed.

Lemma chunk_text_length (text : string) (chunk_size overlap : Z) :
  List.length (chunk_text text chunk_size overlap)
  = nchunks (Py.len text) (step_of chunk_size overlap).
Proof. now rewrite chunk_text_closed, length_map, chunk_spans_length. Qed.

(** X1: the number of chunks is the length of the text divided by the
    step, rounded up. *)
Theorem chunk_text_count (text : string) (chunk_size overlap : Z) :
  let step := Z.max 1 (chunk_size - overlap) in
  Z.of_nat (List.length (chunk_text text chunk_size overlap))
  = (Py.len text + step - 1) / step.
Proof.
  intros step. rewrite chunk_text_length.
  fold (step_of chunk_size overlap) in step.
  pose proof (step_of_pos chunk_size overlap) as Hs. fold step in Hs |- *.
  pose proof (len_nonneg text) as Hn.
  unfold nchunks, count_from.
  destruct (Z.ltb_spec 0 (Py.len text)) as [Hpos|Hzero].
  - replace (Py.len text + step - 1) with (Py.len text - 0 - 1 + 1 * step)
      by lia.
    rewrite Z.div_add by lia.
    assert (0 <= (Py.len text - 0 - 1) / step) by (apply Z.div_pos; lia).
    lia.
  - replace (Py.len text) with 0 by lia.
    rewrite Z.div_small by lia. reflexivity.
Qed.

(** X2: the chunk of index [i] has [min(chunk_size, len(text) - i * step)]
    characters, when the chunk size is above 0: every chunk is full but
    the ones the end of the text cuts. *)
Theorem chunk_text_chunk_len (text : string) (chunk_size overlap : Z)
    (i : nat) (c : string) :
  0 < chunk_size ->
  nth_error (chunk_text text chunk_size overlap) i = Some c ->
  Py.len c
  = Z.min chunk_size
      (Py.len text - Z.of_nat i * Z.max 1 (chunk_size - overlap)).
Proof.
  intros Hcs Hc. apply chunk_text_nth in Hc. destruct Hc as [Hi ->].
  pose proof (step_of_pos chunk_size overlap) as Hs.
  fold (step_of chunk_size overlap).
  rewrite len_slice by lia. lia.
Qed.

Lemma chunk_text_chunk_len_witness :
  nth_error (chunk_text "abcdefghij" 4 1) 3 = Some "j"
  /\ Py.len "j" = Z.min 4 (Py.len "abcdefghij" - 3 * Z.max 1 (4 - 1)).
Proof.
  assert (H : 0 < 4) by lia.
  assert (Hc : nth_error (chunk_text "abcdefghij" 4 1) 3 = Some "j")
    by reflexivity.
  split; [exact Hc|].
  exact (chunk_text_chunk_len "abcdefghij" 4 1 3 "j" H Hc).
Defined.

(** X3: a text that is not empty and is no longer than the chunk size
    and than the step is its own single chunk. *)
Theorem chunk_text_short (text : string) (chunk_size overlap : Z) :
  0 < Py.len text ->
  Py.len text <= chunk_size ->
  Py.len text <= Z.max 1 (chunk_size - overlap) ->
  chunk_text text chunk_size overlap = [text].
Proof.
  intros Hpos Hcs Hstep. fold (step_of chunk_size overlap) in Hstep.
  rewrite chunk_text_closed, chunk_spans_closed.
  unfold nchunks, count_from.
  destruct (Z.ltb_spec 0 (Py.len text)) as [_|?]; [|lia].
  rewrite Z.div_small by lia.
  change (Z.to_nat (0 + 1)) with 1%nat.
  cbn [windows_from map]. unfold slice_span. cbn [fst snd].
  rewrite Z.min_l by lia. now rewrite slice_full.
Qed.

Lemma chunk_text_short_witness :
  chunk_text "one short page" CHUNK_SIZE CHUNK_OVERLAP = ["one short page"].
Proof.
  apply chunk_text_short; vm_compute; congruence.
Defined.

Lemma concat_empty_cons (s : string) (l : list string) :
  concat "" (s :: l) = (s ++ concat "" l)%string.
Proof.
  destruct l as [|t l]; [cbn; now rewrite append_empty_r | reflexivity].
Qed.

(** The windows from [start], each cut to one step, make the text from
    [start] to its end. *)
Lemma windows_from_steps (text : string) (chunk_size step : Z) :
  1 <= step <= chunk_size ->
  forall (k : nat) (start : Z),
    0 <= start ->
    k = count_from (Py.len text) step start ->
    concat ""
      (map (fun sp => Py.slice (slice_span text sp) 0 step)
         (windows_from (Py.len text) chunk_size step k start))
    = Py.slice text start (Py.len text).
Proof.
  intros Hstep. pose proof (len_nonneg text) as Hn.
  induction k as [|k IH]; intros start Hstart Hk.
  - cbn [windows_from map concat].
    assert (Hge : Py.len text <= start).
    { destruct (Z.le_gt_cases (Py.len text) start) as [H|H]; [exact H|].
      rewrite (count_from_next (Py.len text) step) in Hk by lia.
      discriminate Hk. }
    now rewrite slice_empty by lia.
  - assert (Hlt : start < Py.len text).
    { destruct (Z.le_gt_cases (Py.len text) start) as [H|H]; [|lia].
      rewrite count_from_done in Hk by exact H. discriminate Hk. }
    rewrite (count_from_next (Py.len text) step) in Hk by lia.
    injection Hk as Hk.
    cbn [windows_from map]. rewrite concat_empty_cons.
    rewrite (IH (start + step)) by (try exact Hk; lia).
    unfold slice_span. cbn [fst snd].
    rewrite slice_slice by lia. rewrite Z.add_0_r.
    replace (Z.min (Z.min (Py.len text) (start + chunk_size)) (start + step))
      with (Z.min (Py.len text) (start + step)) by lia.
    destruct (Z.le_gt_cases (start + step) (Py.len text)) as [Hin|Hout].
    + rewrite Z.min_r by lia. apply slice_app; lia.
    + rewrite Z.min_l by lia.
      rewrite (slice_empty text (start + step)) by lia.
      apply append_empty_r.
Qed.

(** X4: with a chunk size above 0 and an overlap from 0 to below the
    chunk size, the chunks without their overlap make the text again:
    the first [step] characters of every chunk, one after the other,
    are the text. *)
Theorem chunk_text_reassemble (text : string) (chunk_size overlap : Z) :
  0 < chunk_size ->
  0 <= overlap < chunk_size ->
  let step := Z.max 1 (chunk_size - overlap) in
  concat ""
    (map (fun c => Py.slice c 0 step) (chunk_text text chunk_size overlap))
  = text.
Proof.
  intros Hcs Hov step. fold (step_of chunk_size overlap) in step.
  assert (Hstep : 1 <= step <= chunk_size) by (unfold step, step_of; lia).
  rewrite chunk_text_closed, chunk_spans_closed, map_map.
  fold step. rewrite (windows_from_steps text chunk_size step Hstep);
    [apply slice_full | lia | reflexivity].
Qed.

Lemma chunk_text_reassemble_witness :
  chunk_text "abcdefghij" 4 1 = ["abcd"; "defg"; "ghij"; "j"]
  /\ concat "" (map (fun c => Py.slice c 0 (Z.max 1 (4 - 1)))
                  (chunk_text "abcdefghij" 4 1))
     = "abcdefghij".
Proof.
  assert (H1 : 0 < 4) by lia.
  assert (H2 : 0 <= 1 < 4) by lia.
  split; [reflexivity|].
  exact (chunk_text_reassemble "abcdefghij" 4 1 H1 H2).
Defined.

(** X5: with an overlap from 0 to below the chunk size, a chunk and the
    one after it share their overlap: what the first holds from the
    offset [step] on is the start of the second; a chunk of full size
    shares exactly [overlap] characters. *)
Theorem chunk_text_overlap (text : string) (chunk_size overlap : Z)
    (i : nat) (c c' : string) :
  0 < chunk_size ->
  0 <= overlap < chunk_size ->
  nth_error (chunk_text text chunk_size overlap) i = Some c ->
  nth_error (chunk_text text chunk_size overlap) (S i) = Some c' ->
  let step := Z.max 1 (chunk_size - overlap) in
  Py.slice c step (Py.len c) = Py.slice c' 0 (Py.len c - step)
  /\ Py.len (Py.slice c step (Py.len c)) = Py.len c - step
  /\ (Py.len c = chunk_size -> Py.len c - step = overlap).
Proof.
  intros Hcs Hov Hc Hc' step. fold (step_of chunk_size overlap) in step.
  assert (Hstep : 1 <= step <= chunk_size) by (unfold step, step_of; lia).
  apply chunk_text_nth in Hc. apply chunk_text_nth in Hc'.
  fold step in Hc, Hc'. destruct Hc as [Hi Ec]. destruct Hc' as [Hi' Ec'].
  rewrite Nat2Z.inj_succ, Z.mul_succ_l in Hi', Ec'.
  set (a := Z.of_nat i * step) in *.
  assert (Ha : 0 <= a) by (unfold a; nia).
  pose proof (len_nonneg text) as Hn.
  assert (Hlen : Py.len c = Z.min (Py.len text) (a + chunk_size) - a)
    by (rewrite Ec, len_slice by lia; lia).
  assert (Hshared : Py.slice c step (Py.len c)
                    = Py.slice text (a + step)
                        (Z.min (Py.len text) (a + chunk_size))).
  { rewrite Hlen. rewrite Ec at 1. rewrite slice_slice by lia.
    f_equal. lia. }
  split; [|split].
  - rewrite Hshared, Hlen, Ec', slice_slice by lia.
    rewrite Z.add_0_r. f_equal. lia.
  - rewrite Hshared, len_slice by lia. lia.
  - intros Hfull. unfold step, step_of. lia.
Qed.

Lemma chunk_text_overlap_witness :
  Py.slice "abcd" (Z.max 1 (4 - 1)) (Py.len "abcd")
  = Py.slice "defg" 0 (Py.len "abcd" - Z.max 1 (4 - 1))
  /\ Py.slice "abcd" 3 4 = "d".
Proof.
  assert (H1 : 0 < 4) by lia.
  assert (H2 : 0 <= 1 < 4) by lia.
  assert (Hc : nth_error (chunk_text "abcdefghij" 4 1) 0 = Some "abcd")
    by reflexivity.
  assert (Hc' : nth_error (chunk_text "abcdefghij" 4 1) 1 = Some "defg")
    by reflexivity.
  split; [|reflexivity].
  exact (proj1 (chunk_text_overlap "abcdefghij" 4 1 0 "abcd" "defg"
                  H1 H2 Hc Hc')).
Defined.

(** ** The pages of a file *)

Lemma read_pdf_text_unreadable (pdf : pdf_file) :
  unreadable pdf = true -> read_pdf_text pdf = [].
Proof.
  unfold unreadable, read_pdf_text.
  destruct (pdf_parses pdf), (pdf_is_encrypted pdf),
    (pdf_decrypt_raises pdf), (pdf_is_encrypted_after pdf);
    cbn; congruence.
Qed.

Lemma read_pdf_text_readable (pdf : pdf_file) :
  unreadable pdf = false ->
  read_pdf_text pdf
  = map (fun '(i, page) => (i + 1, page_text page))
      (Py.enumerate (pdf_pages pdf)).
Proof.
  unfold unreadable, read_pdf_text.
  destruct (pdf_parses pdf), (pdf_is_encrypted pdf),
    (pdf_decrypt_raises pdf), (pdf_is_encrypted_after pdf);
    cbn; congruence.
Qed.

(** X6: the pages [read_pdf_text] returns are numbered 1, 2, ... in the
    order of the file, none is left out once the file is read, and a
    page whose extraction raises or gives nothing keeps its number with
    the empty text. *)
Theorem read_pdf_text_numbering (pdf : pdf_file) :
  let pages := read_pdf_text pdf in
  (unreadable pdf = true -> pages = [])
  /\ (unreadable pdf = false ->
      List.length pages = List.length (pdf_pages pdf))
  /\ (forall (i : nat) (pno : Z) (txt : string),
        nth_error pages i = Some (pno, txt) ->
        pno = Z.of_nat i + 1
        /\ exists e : extract_result,
             nth_error (pdf_pages pdf) i = Some e
             /\ txt = page_text e
             /\ (e = ExtractRaised \/ e = ExtractedNone -> txt = "")).
Proof.
  intros pages. split; [apply read_pdf_text_unreadable|].
  destruct (unreadable pdf) eqn:Eu.
  - unfold pages. rewrite (read_pdf_text_unreadable pdf Eu).
    split; [discriminate|]. intros [|i] pno txt H; discriminate H.
  - unfold pages. rewrite (read_pdf_text_readable pdf Eu).
    split.
    + intros _. unfold Py.enumerate.
      now rewrite length_map, enumerate_from_length.
    + intros i pno txt H. rewrite nth_error_map in H.
      destruct (nth_error (Py.enumerate (pdf_pages pdf)) i) as [[j e]|] eqn:Ei;
        [|discriminate H].
      unfold Py.enumerate in Ei.
      destruct (nth_error (pdf_pages pdf) i) as [e0|] eqn:Ee.
      * rewrite (enumerate_from_nth _ 0 i e0 Ee) in Ei.
        apply some_pair_inv in Ei. destruct Ei as [-> ->].
        cbn [option_map] in H. apply some_pair_inv in H.
        destruct H as [-> ->]. split; [lia|].
        exists e0. split; [reflexivity|]. split; [reflexivity|].
        intros [->| ->]; reflexivity.
      * apply nth_error_None in Ee. apply nth_error_lt in Ei.
        rewrite enumerate_from_length in Ei. lia.
Qed.

(** ** The records of a run *)

Section Run.

Context {F : Type}.

Lemma records_of_pages_length (name : string) (pages : list (Z * string)) :
  pages <> [] ->
  List.length (@records_of_pages F name pages)
  = List.length
      (chunk_text (combined_of (map snd pages)) CHUNK_SIZE CHUNK_OVERLAP).
Proof.
  intros Hne. rewrite <- (@records_of_pages_text F name pages Hne).
  now rewrite length_map.
Qed.

(** X7: the records of a run are the records of its files, one file
    after the other: the run over two lists of files, the second after
    the first, gives the records of the first run followed by the
    records of the second. *)
Theorem process_all_app (pdfs1 pdfs2 : list pdf_file) :
  exists recs1 recs2 : list (record F),
    process_all pdfs1 [] = Ok recs1
    /\ process_all pdfs2 [] = Ok recs2
    /\ process_all (pdfs1 ++ pdfs2) [] = Ok (recs1 ++ recs2).
Proof.
  eexists. eexists. rewrite !process_all_closed. cbn [app].
  split; [reflexivity|]. split; [reflexivity|].
  now rewrite flat_map_app.
Qed.

(** X8: a file that does not parse, or that is encrypted and is not
    opened by the empty password, gives no record and raises nothing:
    the run has the records it has without the file. *)
Theorem unreadable_pdf_skipped (pdf : pdf_file)
    (before after : list pdf_file) :
  unreadable pdf = true ->
  @process_pdf F pdf = Ok []
  /\ process_all (before ++ pdf :: after) []
     = @process_all F (before ++ after) [].
Proof.
  intros Hu. unfold process_pdf.
  rewrite !process_all_closed, process_pages_closed. cbn [app].
  rewrite !flat_map_app. cbn [flat_map].
  rewrite (read_pdf_text_unreadable pdf Hu). split; reflexivity.
Qed.

(** X9: a file with pages gives one record per chunk of its text: with
    [L] the sum of the lengths of the page texts plus two characters
    between each two pages, it gives [L / 1000] records, rounded up. *)
Theorem process_pdf_count (pdf : pdf_file) :
  read_pdf_text pdf <> [] ->
  let pages := read_pdf_text pdf in
  let L := total_len (map snd pages) + 2 * (Py.llen pages - 1) in
  exists recs : list (record F),
    process_pdf pdf = Ok recs
    /\ map rec_text recs
       = chunk_text (combined_of (map snd pages)) CHUNK_SIZE CHUNK_OVERLAP
    /\ Py.llen recs = (L + 999) / 1000.
Proof.
  intros Hne pages L. exists (records_of_pages (pdf_name pdf) pages).
  split; [apply process_pages_closed|].
  split; [now apply records_of_pages_text|].
  unfold Py.llen at 1. rewrite records_of_pages_length by exact Hne.
  pose proof (chunk_text_length (combined_of (map snd pages))
                CHUNK_SIZE CHUNK_OVERLAP) as Hlen.
  rewrite Hlen. rewrite len_combined
    by (fold pages in Hne; destruct pages; [congruence | discriminate]).
  replace (Py.llen (map snd pages)) with (Py.llen pages)
    by (unfold Py.llen; now rewrite length_map).
  fold L. change (step_of CHUNK_SIZE CHUNK_OVERLAP) with 1000.
  assert (HL : 0 <= L).
  { unfold L. pose proof (total_len_nonneg (map snd pages)).
    assert (1 <= Py.llen pages);
      [unfold Py.llen; fold pages in Hne; destruct pages;
       [congruence | simpl; lia] | lia]. }
  unfold nchunks, count_from. destruct (Z.ltb_spec 0 L) as [Hpos|Hzero].
  - replace (L + 999) with (L - 0 - 1 + 1 * 1000) by lia.
    rewrite Z.div_add by lia.
    assert (0 <= (L - 0 - 1) / 1000) by (apply Z.div_pos; lia). lia.
  - replace L with 0 by lia. reflexivity.
Qed.

End Run.

Lemma process_pdf_count_witness :
  exists recs : list (record Z),
    process_pdf
      (plain_pdf "Alpha Beta.pdf" [repeat_char 1000 "a"; repeat_char 500 "b"])
    = Ok recs
    /\ Py.llen recs = 2.
Proof.
  set (pdf := plain_pdf "Alpha Beta.pdf"
                [repeat_char 1000 "a"; repeat_char 500 "b"]).
  assert (H : read_pdf_text pdf <> []) by (vm_compute; discriminate).
  destruct (@process_pdf_count Z pdf H) as [recs [Hp [_ Hn]]].
  exists recs. split; [exact Hp|]. rewrite Hn. vm_compute. reflexivity.
Defined.

Lemma unreadable_pdf_skipped_witness :
  let locked :=
    {| pdf_name := "locked.pdf"; pdf_parses := true;
       pdf_is_encrypted := true; pdf_decrypt_raises := true;
       pdf_is_encrypted_after := true; pdf_pages := [Extracted "secret"] |} in
  process_all [plain_pdf "a.pdf" ["x"]; locked; plain_pdf "b.pdf" ["y"]] []
  = @process_all Z [plain_pdf "a.pdf" ["x"]; plain_pdf "b.pdf" ["y"]] [].
Proof.
  intros locked.
  assert (H : unreadable locked = true) by reflexivity.
  exact (proj2 (@unreadable_pdf_skipped Z locked [plain_pdf "a.pdf" ["x"]]
                  [plain_pdf "b.pdf" ["y"]] H)).
Defined.

(** ** The fields of a record *)

Lemma str_of_int_inj (i j : Z) : Py.str_of_int i = Py.str_of_int j -> i = j.
Proof.
  unfold Py.str_of_int. intros H.
  assert (Hn : forall z : Z,
             NilZero.int_of_string (NilZero.string_of_int (Z.to_int z))
             = Some (Z.to_int z)).
  { intros z. apply NilZero.isi; destruct z; cbn; try discriminate;
      intros E; injection E as E;
      exact (DecimalPos.Unsigned.to_uint_nonnil _ E). }
  apply DecimalZ.to_int_inj.
  pose proof (Hn i) as Hi. rewrite H, Hn in Hi. congruence.
Qed.

Lemma append_inj_l (s t u : string) : (s ++ t)%string = (s ++ u)%string -> t = u.
Proof.
  induction s as [|c s IH]; cbn; intros H; [exact H|].
  injection H as H. now apply IH.
Qed.

Lemma has_char_replace (a b : ascii) (s : string) :
  a <> b -> has_char a (Py.replace_char a b s) = false.
Proof.
  intros Hab. induction s as [|c s IH]; [reflexivity|].
  cbn [Py.replace_char has_char]. rewrite IH, orb_false_r.
  destruct (Ascii.eqb_spec c a) as [->|Hc].
  - apply Ascii.eqb_neq. congruence.
  - now apply Ascii.eqb_neq.
Qed.

Lemma book_name_no_underscore (name : string) :
  has_char "_" (book_name_of name) = false.
Proof. apply has_char_replace. discriminate. Qed.

(** A name without an underscore is read back from what follows it when
    that starts with an underscore. *)
Lemma underscore_split (b1 b2 t1 t2 : string) :
  has_char "_" b1 = false ->
  has_char "_" b2 = false ->
  (b1 ++ String "_" t1)%string = (b2 ++ String "_" t2)%string ->
  b1 = b2 /\ t1 = t2.
Proof.
  revert b2. induction b1 as [|c b1 IH]; intros [|d b2] H1 H2 E; cbn in *.
  - injection E as E. now split.
  - injection E as Ed _. subst d. cbn in H2. discriminate H2.
  - injection E as Ec _. subst c. cbn in H1. discriminate H1.
  - injection E as -> E. apply orb_false_elim in H1, H2.
    destruct (IH b2 (proj2 H1) (proj2 H2) E) as [-> ->]. now split.
Qed.

Section Fields.

Context {F : Type}.

(** The record of index [i] of a file is built from the chunk of index
    [i]. *)
Lemma records_of_pages_nth_record (name : string)
    (pages : list (Z * string)) (i : nat) (r : record F) :
  nth_error (records_of_pages name pages) i = Some r ->
  exists c : string,
    nth_error (chunk_text (combined_of (map snd pages))
                 CHUNK_SIZE CHUNK_OVERLAP) i = Some c
    /\ r = record_of (book_name_of name) name (page_offsets 0 pages)
             (cum_lens_of (chunk_text (combined_of (map snd pages))
                             CHUNK_SIZE CHUNK_OVERLAP))
             (Z.of_nat i, c).
Proof.
  intros Hr. destruct pages as [|p ps]; [destruct i; discriminate Hr|].
  unfold records_of_pages in Hr. rewrite nth_error_map in Hr.
  set (chunks := chunk_text (combined_of (map snd (p :: ps)))
                   CHUNK_SIZE CHUNK_OVERLAP) in *.
  destruct (nth_error (Py.enumerate chunks) i) as [[j ch]|] eqn:Ei;
    [|discriminate Hr].
  pose proof (nth_error_lt _ _ _ Ei) as Hi.
  unfold Py.enumerate in Hi, Ei. rewrite enumerate_from_length in Hi.
  destruct (nth_error chunks i) as [c|] eqn:Ec;
    [|apply nth_error_None in Ec; lia].
  rewrite (enumerate_from_nth _ 0 i c Ec) in Ei.
  apply some_pair_inv in Ei. destruct Ei as [-> ->].
  cbn [option_map] in Hr. apply some_inv in Hr.
  exists c. split; [reflexivity|]. rewrite Hr, Z.add_0_l. reflexivity.
Qed.

(** X10: the record of index [i] of a file has the chunk index [i], the
    chunk of index [i] as its text, the book name of the file, which has
    no underscore, the id made of the book name and [i], the source made
    of the file name and its two pages, and no embedding yet. *)
Theorem process_pdf_fields (pdf : pdf_file) :
  let chunks :=
    chunk_text (combined_of (map snd (read_pdf_text pdf)))
      CHUNK_SIZE CHUNK_OVERLAP in
  exists recs : list (record F),
    process_pdf pdf = Ok recs
    /\ forall (i : nat) (r : record F),
         nth_error recs i = Some r ->
         rec_chunk_id r = Z.of_nat i
         /\ nth_error chunks i = Some (rec_text r)
         /\ rec_book r = Py.replace_char "_" " " (Py.stem (pdf_name pdf))
         /\ has_char "_" (rec_book r) = false
         /\ rec_id r
            = (rec_book r ++ "__chunk_" ++ Py.str_of_int (Z.of_nat i))%string
         /\ rec_source r
            = (pdf_name pdf ++ "#pp." ++ Py.str_of_int (fst (rec_pages r))
               ++ "-" ++ Py.str_of_int (snd (rec_pages r)))%string
         /\ rec_embedding r = None.
Proof.
  intros chunks.
  exists (records_of_pages (pdf_name pdf) (read_pdf_text pdf)).
  split; [apply process_pages_closed|].
  intros i r Hr. apply records_of_pages_nth_record in Hr.
  destruct Hr as [c [Hc ->]]. fold chunks in Hc.
  repeat split; try reflexivity; try exact Hc.
  apply book_name_no_underscore.
Qed.

Lemma In_records_id (pdfs : list pdf_file) (recs : list (record F))
    (r : record F) :
  process_all pdfs [] = Ok recs ->
  In r recs ->
  has_char "_" (rec_book r) = false
  /\ rec_id r
     = (rec_book r ++ "__chunk_" ++ Py.str_of_int (rec_chunk_id r))%string.
Proof.
  rewrite process_all_closed. cbn [app]. intros H Hin.
  injection H as H.
  subst recs. apply in_flat_map in Hin. destruct Hin as [pdf [_ Hin]].
  apply In_nth_error in Hin. destruct Hin as [i Hr].
  apply records_of_pages_nth_record in Hr. destruct Hr as [c [_ ->]].
  split; [apply book_name_no_underscore | reflexivity].
Qed.

(** X11: in a run, two records with the same id have the same book name
    and the same chunk index; and the ids of the records of one file
    are all different. *)
Theorem record_ids_unique (pdfs : list pdf_file) (recs : list (record F)) :
  process_all pdfs [] = Ok recs ->
  (forall r1 r2 : record F,
     In r1 recs -> In r2 recs ->
     rec_id r1 = rec_id r2 ->
     rec_book r1 = rec_book r2 /\ rec_chunk_id r1 = rec_chunk_id r2)
  /\ (forall (pdf : pdf_file) (recs1 : list (record F)),
        process_pdf pdf = Ok recs1 -> NoDup (map rec_id recs1)).
Proof.
  intros Hrun. split.
  - intros r1 r2 H1 H2 Hid.
    destruct (In_records_id pdfs recs r1 Hrun H1) as [Hb1 E1].
    destruct (In_records_id pdfs recs r2 Hrun H2) as [Hb2 E2].
    rewrite E1, E2 in Hid.
    change ("__chunk_" ++ ?x)%string with (String "_" ("_chunk_" ++ x)) in Hid.
    destruct (underscore_split _ _ _ _ Hb1 Hb2 Hid) as [Hb Ht].
    split; [exact Hb|].
    apply str_of_int_inj. exact (append_inj_l "_chunk_" _ _ Ht).
  - intros pdf recs1 Hp. unfold process_pdf in Hp.
    rewrite process_pages_closed in Hp. injection Hp as <-.
    apply NoDup_nth_error. intros i j Hi Hij.
    rewrite length_map in Hi. rewrite !nth_error_map in Hij.
    destruct (nth_error (records_of_pages (pdf_name pdf) (read_pdf_text pdf)) i)
      as [ri|] eqn:Ei; [|apply nth_error_None in Ei; lia].
    destruct (nth_error (records_of_pages (pdf_name pdf) (read_pdf_text pdf)) j)
      as [rj|] eqn:Ej; [|discriminate Hij].
    apply records_of_pages_nth_record in Ei, Ej.
    destruct Ei as [ci [_ ->]]. destruct Ej as [cj [_ ->]].
    cbn [option_map] in Hij. apply some_inv in Hij.
    rewrite !record_of_id in Hij. apply append_inj_l in Hij.
    apply (append_inj_l "__chunk_") in Hij. apply str_of_int_inj in Hij. lia.
Qed.

End Fields.

Lemma record_ids_unique_witness :
  exists recs : list (record Z),
    process_pdf
      (plain_pdf "Alpha Beta.pdf" [repeat_char 1000 "a"; repeat_char 500 "b"])
    = Ok recs
    /\ NoDup (map rec_id recs).
Proof.
  set (pdf := plain_pdf "Alpha Beta.pdf"
                [repeat_char 1000 "a"; repeat_char 500 "b"]).
  destruct (@process_all Z [pdf] []) as [recs|e] eqn:Hrun;
    [|vm_compute in Hrun; discriminate Hrun].
  destruct (@process_pdf Z pdf) as [recs1|e] eqn:Hp;
    [|vm_compute in Hp; discriminate Hp].
  exists recs1. split; [reflexivity|].
  exact (proj2 (record_ids_unique [pdf] recs Hrun) pdf recs1 Hp).
Defined.

(** ** The page lookup, further *)

Lemma page_at_In (page_map : list (Z * Z)) (pos : Z) :
  forall pno0 : Z,
    page_map <> [] -> In (page_at pno0 page_map pos) (map fst page_map).
Proof.
  induction page_map as [|[p upto] rest IH]; intros pno0 Hne; [congruence|].
  cbn [page_at map fst]. destruct (pos <=? upto); [now left|].
  destruct rest as [|e rest]; [now left|].
  right. apply IH. discriminate.
Qed.

(** X12: [find_page] raises [IndexError] on an empty page map, and on
    any other it returns the page number of one of the entries of the
    map. *)
Theorem find_page_in_map (page_map : list (Z * Z)) (pos : Z) :
  (page_map = [] -> find_page page_map pos = Raise IndexError)
  /\ (page_map <> [] ->
      exists pno : Z,
        find_page page_map pos = Ok pno /\ In pno (map fst page_map)).
Proof.
  split.
  - intros ->. reflexivity.
  - intros Hne. exists (page_at 0 page_map pos).
    split; [now apply find_page_page_at | now apply page_at_In].
Qed.

(** X13: when the page numbers never decrease along the map, a later
    position is never on an earlier page. *)
Theorem find_page_monotone (page_map : list (Z * Z)) (lo pos pos' p p' : Z) :
  pnos_sorted lo page_map ->
  pos <= pos' ->
  find_page page_map pos = Ok p ->
  find_page page_map pos' = Ok p' ->
  p <= p'.
Proof.
  intros Hs Hpos Hp Hp'.
  assert (Hne : page_map <> []) by (intros ->; discriminate Hp).
  rewrite (find_page_page_at page_map pos lo Hne) in Hp.
  rewrite (find_page_page_at page_map pos' lo Hne) in Hp'.
  injection Hp as <-. injection Hp' as <-.
  now apply page_at_mono.
Qed.

Lemma find_page_monotone_witness :
  find_page [(1, 100); (2, 300); (3, 350)] 250 = Ok 2
  /\ find_page [(1, 100); (2, 300); (3, 350)] 301 = Ok 3
  /\ 2 <= 3.
Proof.
  assert (Hs : pnos_sorted 1 [(1, 100); (2, 300); (3, 350)])
    by (cbn; lia).
  assert (Hpos : 250 <= 301) by lia.
  assert (Hp : find_page [(1, 100); (2, 300); (3, 350)] 250 = Ok 2)
    by reflexivity.
  assert (Hp' : find_page [(1, 100); (2, 300); (3, 350)] 301 = Ok 3)
    by reflexivity.
  split; [exact Hp|]. split; [exact Hp'|].
  exact (find_page_monotone [(1, 100); (2, 300); (3, 350)] 1 250 301 2 3
           Hs Hpos Hp Hp').
Defined.

(** X14: [approx_pages] with a start index of the list and an end index
    that is not negative raises nothing on a page map that is not
    empty: past the list the end position is the last entry of
    [cum_lens]; a start index past the list raises [IndexError]. *)
Theorem approx_pages_bounds (page_map : list (Z * Z)) (cum_lens : list Z)
    (start_idx end_idx : Z) :
  page_map <> [] ->
  0 <= end_idx ->
  (0 <= start_idx < Py.llen cum_lens ->
   let end_char :=
     if end_idx + 1 <? Py.llen cum_lens
     then nth (Z.to_nat (end_idx + 1)) cum_lens 0
     else last cum_lens 0 in
   approx_pages page_map cum_lens start_idx end_idx
   = Ok (page_at 0 page_map (nth (Z.to_nat start_idx) cum_lens 0),
         page_at 0 page_map end_char))
  /\ (Py.llen cum_lens <= start_idx ->
      approx_pages page_map cum_lens start_idx end_idx = Raise IndexError).
Proof.
  intros Hpm Hend. split.
  - intros Hstart end_char. unfold approx_pages.
    rewrite (getitem_nth cum_lens start_idx 0) by lia. cbn [bind].
    assert (Hne : cum_lens <> []).
    { intros ->. unfold Py.llen in Hstart. simpl in Hstart. lia. }
    assert (He : (if end_idx + 1 <? Py.llen cum_lens
                  then Py.getitem cum_lens (end_idx + 1)
                  else Py.getitem cum_lens (-1)) = Ok end_char).
    { unfold end_char.
      destruct (Z.ltb_spec (end_idx + 1) (Py.llen cum_lens)) as [Hin|Hout].
      - apply getitem_nth. lia.
      - now apply getitem_last. }
    rewrite He. cbn [bind].
    rewrite !(find_page_page_at page_map _ 0 Hpm). reflexivity.
  - intros Hout. unfold approx_pages.
    now rewrite getitem_out by exact Hout.
Qed.

Lemma approx_pages_bounds_witness :
  approx_pages [(1, 100); (2, 300)] [0; 150; 400] 1 7 = Ok (2, 2).
Proof.
  assert (Hpm : [(1, 100); (2, 300)] <> []) by discriminate.
  assert (Hend : 0 <= 7) by lia.
  assert (Hstart : 0 <= 1 < Py.llen [0; 150; 400])
    by (vm_compute; split; congruence).
  exact (proj1 (approx_pages_bounds [(1, 100); (2, 300)] [0; 150; 400] 1 7
                  Hpm Hend) Hstart).
Defined.

(** ** The pages of a record *)

Lemma read_pdf_text_pnos (pdf : pdf_file) (pno : Z) :
  In pno (map fst (read_pdf_text pdf)) ->
  1 <= pno <= Py.llen (read_pdf_text pdf).
Proof.
  destruct (unreadable pdf) eqn:Eu.
  - rewrite (read_pdf_text_unreadable pdf Eu). intros [].
  - rewrite (read_pdf_text_readable pdf Eu). intros Hin.
    apply in_map_iff in Hin. destruct Hin as [[p txt] [<- Hin]].
    apply in_map_iff in Hin. destruct Hin as [[i e] [Heq Hin]].
    injection Heq as <- _. apply enumerate_from_In in Hin.
    unfold Py.llen in *. unfold Py.enumerate.
    rewrite length_map, enumerate_from_length. cbn [fst]. lia.
Qed.

Lemma page_offsets_first_page (pages : list (Z * string)) (p : Z * string) :
  page_at 0 (page_offsets 0 (p :: pages)) 0 = fst p.
Proof.
  destruct p as [pno txt]. cbn [page_offsets page_at fst].
  pose proof (len_nonneg txt).
  destruct (Z.leb_spec 0 (0 + Py.len txt)); [reflexivity | lia].
Qed.

(** X15: the two pages of every record of a file are page numbers of the
    file, from 1 to the number of its pages, and the record of the chunk
    of index 0 starts on page 1. *)
Theorem record_pages_in_range (F : Type) (pdf : pdf_file) :
  exists recs : list (record F),
    process_pdf pdf = Ok recs
    /\ (forall r : record F,
          In r recs ->
          1 <= fst (rec_pages r) <= Py.llen (read_pdf_text pdf)
          /\ 1 <= snd (rec_pages r) <= Py.llen (read_pdf_text pdf))
    /\ (forall r : record F,
          nth_error recs 0 = Some r -> fst (rec_pages r) = 1).
Proof.
  exists (records_of_pages (pdf_name pdf) (read_pdf_text pdf)).
  split; [apply process_pages_closed|]. split.
  - intros r Hin. apply In_nth_error in Hin. destruct Hin as [i Hr].
    apply records_of_pages_nth in Hr. destruct Hr as [_ [Hne Hp]].
    rewrite Hp. cbn [fst snd].
    assert (Hpm : page_offsets 0 (read_pdf_text pdf) <> [])
      by now apply page_offsets_nonnil.
    split; apply read_pdf_text_pnos;
      rewrite <- (page_offsets_fst (read_pdf_text pdf) 0);
      now apply page_at_In.
  - intros r Hr. apply records_of_pages_nth in Hr.
    destruct Hr as [_ [Hne Hp]]. rewrite Hp. cbn [fst].
    change (nth 0 (cum_lens_of ?c) 0) with 0.
    destruct (read_pdf_text pdf) as [|p pages] eqn:Ep; [congruence|].
    rewrite page_offsets_first_page.
    assert (Hin : In (fst p) (map fst (read_pdf_text pdf)))
      by (rewrite Ep; now left).
    assert (Hnth : nth_error (read_pdf_text pdf) 0 = Some p)
      by now rewrite Ep.
    destruct (unreadable pdf) eqn:Eu.
    + rewrite (read_pdf_text_unreadable pdf Eu) in Ep. discriminate Ep.
    + rewrite (read_pdf_text_readable pdf Eu) in Hnth.
      rewrite nth_error_map in Hnth. unfold Py.enumerate in Hnth.
      destruct (pdf_pages pdf) as [|e es]; [discriminate Hnth|].
      cbn in Hnth. apply some_inv in Hnth. now rewrite Hnth.
Qed.

(** ** The embedding step, further *)

Lemma getitem_ok {A : Type} (l : list A) (i : Z) (a : A) :
  0 <= i -> Py.getitem l i = Ok a -> nth_error l (Z.to_nat i) = Some a.
Proof.
  intros Hi. unfold Py.getitem.
  destruct (Z.ltb_spec i 0) as [?|_]; [lia|].
  destruct ((i <? 0) || (Py.llen l <=? i)); [discriminate|].
  destruct (nth_error l (Z.to_nat i)); [congruence | discriminate].
Qed.

Section Embedding.

Context {F : Type}.

(** What the loop over the records has stored when it ends without an
    error. *)
Lemma attach_embeddings_nth (embeddings : list (list F))
    (records : list (record F)) :
  forall (k : Z) (recs' : list (record F)),
    0 <= k ->
    attach_embeddings (Py.enumerate_from k records) embeddings = Ok recs' ->
    List.length recs' = List.length records
    /\ forall (i : nat) (r' : record F),
         nth_error recs' i = Some r' ->
         exists (r : record F) (v : list F),
           nth_error records i = Some r
           /\ nth_error embeddings (Z.to_nat k + i) = Some v
           /\ r' = with_embedding r v.
Proof.
  induction records as [|rec records IH]; intros k recs' Hk H.
  - injection H as <-. split; [reflexivity|].
    intros [|i] r' Hr; discriminate Hr.
  - cbn [Py.enumerate_from attach_embeddings] in H.
    destruct (Py.getitem embeddings k) as [v|e] eqn:Ev; [|discriminate H].
    cbn [bind] in H.
    destruct (attach_embeddings (Py.enumerate_from (k + 1) records) embeddings)
      as [recs|e] eqn:Er; [|discriminate H].
    cbn [bind] in H. injection H as <-.
    destruct (IH (k + 1) recs ltac:(lia) Er) as [Hlen Hnth].
    split; [cbn [List.length]; now rewrite Hlen|].
    intros [|i] r' Hr.
    + cbn [nth_error] in Hr. apply some_inv in Hr.
      exists rec, v. split; [reflexivity|]. rewrite Nat.add_0_r.
      split; [now apply getitem_ok | now rewrite Hr].
    + cbn [nth_error] in Hr. destruct (Hnth i r' Hr) as [r [v' [H1 [H2 H3]]]].
      exists r, v'. split; [exact H1|]. split; [|exact H3].
      replace (Z.to_nat k + S i)%nat with (Z.to_nat (k + 1) + i)%nat by lia.
      exact H2.
Qed.

(** The embedding step ends with [Ok None] only without a record. *)
Lemma embed_and_write_none (encode : list string -> list (list F))
    (records : list (record F)) :
  embed_and_write encode records = Ok None <-> records = [].
Proof.
  split; [|intros ->; reflexivity].
  unfold embed_and_write. destruct records as [|r records]; [reflexivity|].
  cbn [map]. intros H.
  destruct (attach_embeddings _ _) as [recs'|e]; [|discriminate H].
  cbn [bind] in H.
  destruct (0 <? Py.llen (encode (rec_text r :: map rec_text records))).
  - destruct (Py.getitem _ 0); discriminate H.
  - discriminate H.
Qed.

(** X16: when a run writes an index, the index has as many records as
    the run built, in the same order; the record at position [k] is the
    record built at position [k] with the vector at position [k] of the
    answer of the encoder stored in it and every other field as it was;
    and the metadata hold the number of records and the length of the
    first vector. *)
Theorem main_positional (pdfs : list pdf_file)
    (encode : list string -> list (list F)) (idx : index F) :
  main pdfs encode = Ok (Some idx) ->
  exists records : list (record F),
    process_all pdfs [] = Ok records
    /\ List.length (idx_records idx) = List.length records
    /\ (forall (k : nat) (r' : record F),
          nth_error (idx_records idx) k = Some r' ->
          exists (r : record F) (v : list F),
            nth_error records k = Some r
            /\ nth_error (encode (map rec_text records)) k = Some v
            /\ r' = with_embedding r v)
    /\ md_total_chunks (idx_metadata idx) = Py.llen records
    /\ md_embedding_dim (idx_metadata idx)
       = Py.llen (nth 0 (encode (map rec_text records)) [])
    /\ md_model (idx_metadata idx) = MODEL_NAME
    /\ md_chunk_size (idx_metadata idx) = CHUNK_SIZE
    /\ md_chunk_overlap (idx_metadata idx) = CHUNK_OVERLAP.
Proof.
  unfold main. rewrite process_all_closed. cbn [app bind].
  set (records :=
         flat_map (fun pdf => @records_of_pages F (pdf_name pdf)
                                (read_pdf_text pdf)) pdfs).
  intros H. exists records. split; [reflexivity|].
  unfold embed_and_write in H.
  destruct (map rec_text records) as [|t ts] eqn:Et; [discriminate H|].
  assert (Hpos : (0 < List.length records)%nat).
  { destruct records as [|r rs]; [discriminate Et | cbn; lia]. }
  rewrite <- Et in *. clear Et.
  set (embeddings := encode (map rec_text records)) in *.
  destruct (attach_embeddings (Py.enumerate records) embeddings)
    as [recs'|e] eqn:Ea; [|discriminate H].
  cbn [bind] in H. unfold Py.enumerate in Ea.
  apply attach_embeddings_nth in Ea; [|lia]. destruct Ea as [Hlen Hnth].
  assert (Hfirst : exists v0 : list F, nth_error embeddings 0 = Some v0).
  { destruct (nth_error recs' 0) as [r0|] eqn:E0.
    - destruct (Hnth 0%nat r0 E0) as [r [v [_ [Hv _]]]]. now exists v.
    - apply nth_error_None in E0. lia. }
  destruct Hfirst as [v0 Hv0].
  assert (Hdim : (if 0 <? Py.llen embeddings
                  then v <- Py.getitem embeddings 0 ;; Ok (Py.llen v)
                  else Ok 0) = Ok (Py.llen (nth 0 embeddings []))).
  { pose proof (nth_error_lt _ _ _ Hv0) as Hl.
    destruct (Z.ltb_spec 0 (Py.llen embeddings)) as [_|Hz];
      [|unfold Py.llen in Hz; lia].
    rewrite (getitem_nth embeddings 0 []) by (unfold Py.llen; lia).
    reflexivity. }
  rewrite Hdim in H. cbn [bind] in H. injection H as <-.
  cbn [idx_records idx_metadata md_total_chunks md_embedding_dim md_model
         md_chunk_size md_chunk_overlap].
  split; [exact Hlen|]. split; [exact Hnth|].
  split; [unfold Py.llen; now rewrite Hlen|].
  repeat split.
Qed.

(** X17: a run ends without an error and without writing an index
    exactly when every file gives no record; the encoder is not asked
    then. *)
Theorem main_writes_nothing (pdfs : list pdf_file)
    (encode : list string -> list (list F)) :
  main pdfs encode = Ok None
  <-> forall pdf : pdf_file, In pdf pdfs -> @process_pdf F pdf = Ok [].
Proof.
  unfold main. rewrite process_all_closed. cbn [app bind].
  rewrite embed_and_write_none. unfold process_pdf.
  induction pdfs as [|pdf pdfs IH]; cbn [flat_map].
  - split; [intros _ pdf [] | reflexivity].
  - split.
    + intros H. apply app_eq_nil in H. destruct H as [H1 H2].
      intros p [<-|Hp].
      * now rewrite process_pages_closed, H1.
      * now apply IH.
    + intros H. assert (H1 := H pdf (or_introl eq_refl)).
      rewrite process_pages_closed in H1. injection H1 as H1.
      rewrite H1. cbn [app]. apply IH. intros p Hp. apply H. now right.
Qed.

End Embedding.

Lemma main_positional_witness :
  exists idx : index Z,
    main [plain_pdf "a.pdf" ["hello"]] (fun _ => [[1; 2]]) = Ok (Some idx)
    /\ md_total_chunks (idx_metadata idx) = 1
    /\ md_embedding_dim (idx_metadata idx) = 2.
Proof.
  destruct (main [plain_pdf "a.pdf" ["hello"]] (fun _ => [[1; 2]]))
    as [[idx|]|e] eqn:Hm; try (vm_compute in Hm; discriminate Hm).
  exists idx. split; [reflexivity|].
  destruct (main_positional _ _ idx Hm)
    as [records [Hr [_ [_ [Ht [Hd _]]]]]].
  vm_compute in Hr. injection Hr as <-.
  split; [exact Ht | exact Hd].
Defined.

(** ** The offsets the main program takes for the chunks *)

(** Running sums of numbers between [lo] and [hi]. *)
Lemma cumsum_from_bounds (lo hi : Z) :
  forall (i : nat) (l : list Z) (acc : Z),
    (i <= List.length l)%nat ->
    (forall j : nat, (j < i)%nat -> lo <= nth j l 0 <= hi) ->
    acc + Z.of_nat i * lo <= nth i (acc :: Py.cumsum_from acc l) 0
    /\ nth i (acc :: Py.cumsum_from acc l) 0 <= acc + Z.of_nat i * hi.
Proof.
  induction i as [|i IH]; intros l acc Hi Hb.
  - cbn [nth]. lia.
  - destruct l as [|x l]; [simpl in Hi; lia|].
    cbn [Py.cumsum_from].
    change (nth (S i) (acc :: acc + x :: Py.cumsum_from (acc + x) l) 0)
      with (nth i (acc + x :: Py.cumsum_from (acc + x) l) 0).
    assert (Hx : lo <= x <= hi) by (apply (Hb 0%nat); lia).
    destruct (IH l (acc + x)) as [H1 H2].
    + simpl in Hi. lia.
    + intros j Hj. apply (Hb (S j)). lia.
    + rewrite Nat2Z.inj_succ, !Z.mul_succ_l. lia.
Qed.

(** X18: with a chunk size above 0 and an overlap from 0 to below the
    chunk size, the offset [cum_lens[i]] the main program takes for the
    chunk of index [i] is 0 for the first chunk and lies, for every
    chunk, between the offset [i * step] where the chunk starts in the
    text and [i * chunk_size]. *)
Theorem cum_lens_bounds (text : string) (chunk_size overlap : Z) (i : nat) :
  0 < chunk_size ->
  0 <= overlap < chunk_size ->
  let chunks := chunk_text text chunk_size overlap in
  let step := Z.max 1 (chunk_size - overlap) in
  (i < List.length chunks)%nat ->
  nth 0 (cum_lens_of chunks) 0 = 0
  /\ Z.of_nat i * step <= nth i (cum_lens_of chunks) 0
  /\ nth i (cum_lens_of chunks) 0 <= Z.of_nat i * chunk_size.
Proof.
  intros Hcs Hov chunks step Hi. split; [reflexivity|].
  fold (step_of chunk_size overlap) in step.
  assert (Hstep : 1 <= step <= chunk_size) by (unfold step, step_of; lia).
  change (cum_lens_of chunks) with (0 :: Py.cumsum_from 0 (map Py.len chunks)).
  destruct (cumsum_from_bounds step chunk_size i (map Py.len chunks) 0)
    as [H1 H2]; [rewrite length_map; lia| |lia].
  intros j Hj.
  destruct (nth_error chunks j) as [c|] eqn:Ec;
    [|apply nth_error_None in Ec; lia].
  destruct (nth_error chunks (S j)) as [c'|] eqn:Ec';
    [|apply nth_error_None in Ec'; lia].
  assert (Hn : nth j (map Py.len chunks) 0 = Py.len c).
  { apply nth_error_nth. now rewrite nth_error_map, Ec. }
  rewrite Hn. apply chunk_text_nth in Ec. apply chunk_text_nth in Ec'.
  fold step in Ec, Ec'. destruct Ec as [Hj1 ->]. destruct Ec' as [Hj2 _].
  rewrite Nat2Z.inj_succ, Z.mul_succ_l in Hj2.
  assert (0 <= Z.of_nat j * step) by nia.
  rewrite len_slice by lia. lia.
Qed.

Lemma cum_lens_bounds_witness :
  cum_lens_of (chunk_text "abcdefghij" 4 1) = [0; 4; 8; 12; 13]
  /\ 2 * Z.max 1 (4 - 1) <= nth 2 (cum_lens_of (chunk_text "abcdefghij" 4 1)) 0
  /\ nth 2 (cum_lens_of (chunk_text "abcdefghij" 4 1)) 0 <= 2 * 4.
Proof.
  assert (H1 : 0 < 4) by lia.
  assert (H2 : 0 <= 1 < 4) by lia.
  assert (H3 : (2 < List.length (chunk_text "abcdefghij" 4 1))%nat)
    by (vm_compute; lia).
  split; [reflexivity|].
  exact (proj2 (cum_lens_bounds "abcdefghij" 4 1 2 H1 H2 H3)).
Defined.

(** ** The text of a file in its records *)

(** X19: the records of a file hold its whole text: the first 1000
    characters of the text of every record, one after the other, are
    the page texts of the file joined by two line feeds. *)
Theorem process_pdf_reassemble (F : Type) (pdf : pdf_file) :
  exists recs : list (record F),
    process_pdf pdf = Ok recs
    /\ concat "" (map (fun r => Py.slice (rec_text r) 0 1000) recs)
       = Py.join (String "010" (String "010" ""))
           (map snd (read_pdf_text pdf)).
Proof.
  exists (records_of_pages (pdf_name pdf) (read_pdf_text pdf)).
  split; [apply process_pages_closed|].
  destruct (read_pdf_text pdf) as [|p pages] eqn:Ep; [reflexivity|].
  rewrite <- Ep.
  assert (Hne : read_pdf_text pdf <> []) by congruence.
  rewrite <- (map_map rec_text (fun c => Py.slice c 0 1000)).
  rewrite (@records_of_pages_text F _ _ Hne).
  rewrite chunk_text_closed, chunk_spans_closed, map_map.
  change (step_of CHUNK_SIZE CHUNK_OVERLAP) with 1000.
  rewrite (windows_from_steps _ CHUNK_SIZE 1000);
    [apply slice_full | unfold CHUNK_SIZE; lia | lia | reflexivity].
Qed.

(** ** The page map and the lookup together *)

Lemma page_offsets_app (l1 l2 : list (Z * string)) :
  forall acc : Z,
    page_offsets acc (l1 ++ l2)
    = page_offsets acc l1
      ++ page_offsets (acc + total_len (map snd l1)) l2.
Proof.
  induction l1 as [|[pno txt] l1 IH]; intros acc.
  - cbn. now rewrite Z.add_0_r.
  - cbn [app page_offsets map snd]. rewrite IH.
    change (total_len (txt :: map snd l1))
      with (Py.len txt + total_len (map snd l1)).
    now rewrite Z.add_assoc.
Qed.

Lemma page_offsets_upper (pages : list (Z * string)) :
  forall (acc : Z) (e : Z * Z),
    In e (page_offsets acc pages) ->
    snd e <= acc + total_len (map snd pages).
Proof.
  induction pages as [|[pno txt] pages IH]; intros acc e Hin; [contradiction|].
  change (total_len (map snd ((pno, txt) :: pages)))
    with (Py.len txt + total_len (map snd pages)).
  pose proof (total_len_nonneg (map snd pages)).
  destruct Hin as [<-|Hin]; [simpl; lia|].
  apply IH in Hin. lia.
Qed.

Lemma find_page_scan_app (l1 l2 : list (Z * Z)) (pos : Z) :
  (forall e, In e l1 -> snd e < pos) ->
  find_page_scan (l1 ++ l2) pos = find_page_scan l2 pos.
Proof.
  induction l1 as [|[p upto] l1 IH]; intros Hlt; [reflexivity|].
  cbn [app find_page_scan].
  assert (Hp : upto < pos) by (apply (Hlt (p, upto)); now left).
  destruct (Z.leb_spec pos upto) as [?|_]; [lia|].
  apply IH. intros e He. apply Hlt. now right.
Qed.

(** X20: looking up, in the page map of a document, a position among
    the characters of one page, counted from 1 over the page texts
    without a separator, gives the number of that page. *)
Theorem find_page_locates (before after : list (Z * string)) (pno : Z)
    (txt : string) (pos : Z) :
  total_len (map snd before) < pos ->
  pos <= total_len (map snd before) + Py.len txt ->
  find_page (snd (build_page_map (before ++ (pno, txt) :: after))) pos
  = Ok pno.
Proof.
  intros Hlo Hhi. rewrite build_page_map_closed. cbn [snd].
  rewrite page_offsets_app. cbn [page_offsets]. unfold find_page.
  rewrite find_page_scan_app.
  - cbn [find_page_scan].
    destruct (Z.leb_spec pos (0 + total_len (map snd before) + Py.len txt));
      [reflexivity | lia].
  - intros e He. apply page_offsets_upper in He. lia.
Qed.

Lemma find_page_locates_witness :
  find_page
    (snd (build_page_map
            ([(1, repeat_char 100 "a")]
             ++ (2, repeat_char 200 "b") :: [(3, repeat_char 50 "c")])))
    101
  = Ok 2.
Proof.
  apply find_page_locates; vm_compute; congruence.
Defined.

(** X21: in the records of a file, the end page of a record is the start
    page of the record after it. *)
Theorem record_pages_chain (F : Type) (pdf : pdf_file) :
  exists recs : list (record F),
    process_pdf pdf = Ok recs
    /\ forall (i : nat) (r r' : record F),
         nth_error recs i = Some r ->
         nth_error recs (S i) = Some r' ->
         snd (rec_pages r) = fst (rec_pages r').
Proof.
  exists (records_of_pages (pdf_name pdf) (read_pdf_text pdf)).
  split; [apply process_pages_closed|].
  intros i r r' Hr Hr'.
  apply records_of_pages_nth in Hr. apply records_of_pages_nth in Hr'.
  destruct Hr as [_ [_ ->]]. destruct Hr' as [_ [_ ->]]. reflexivity.
Qed.
